(** * pkgx/apigateway: the gateway bootstrap, its access logging and lifecycle

    A shallow embedding of [apigateway.go].  Go strings are byte sequences
    ([string]), byte slices are [list byte], [int] is [Z].  Calls that leave
    the package (the package-level logger of pkgx/log, the echo server) are
    recorded, in order, in the [trace] of an explicit world that every
    effectful function threads; a Go panic is the result [None]. *)

From Stdlib Require Import ZArith Lia Bool List.
From Stdlib Require Import Strings.Ascii Strings.String Strings.Byte DecimalString.
From Stdlib Require Import Sorting.Sorted Sorting.Permutation.
From stdpp Require Import base option gmap strings.

Import ListNotations.
Local Open Scope string_scope.
Local Open Scope Z_scope.

(** ** The parts of Go's [strings], [math] and [fmt] the package uses *)

Module GoStrings.

(** [strings.HasPrefix(s, prefix)]:
    [len(s) >= len(prefix) && s[:len(prefix)] == prefix]. *)
Fixpoint HasPrefix (s prefix : string) {struct prefix} : bool :=
  match prefix, s with
  | EmptyString, _ => true
  | String _ _, EmptyString => false
  | String p prefix', String c s' => Ascii.eqb c p && HasPrefix s' prefix'
  end.

(** [strings.Contains(s, substr)]: [substr] occurs at some byte offset of
    [s]. *)
Fixpoint Contains (s substr : string) : bool :=
  HasPrefix s substr ||
  match s with
  | EmptyString => false
  | String _ s' => Contains s' substr
  end.

(** [strconv.Itoa]. *)
Definition Itoa (n : Z) : string := NilZero.string_of_int (Z.to_int n).

End GoStrings.

Module GoMath.

(** [float64(n)] for an [int] [n >= 0], as the integer it denotes: exact up
    to [2^53], beyond that rounded to 53 significant bits, ties to even. *)
Definition float64_of_int (n : Z) : Z :=
  if n <? 2 ^ 53 then n
  else
    let e := Z.log2 n - 52 in
    let q := Z.shiftr n e in
    let r := Z.land n (Z.ones e) in
    let half := Z.shiftl 1 (e - 1) in
    let q' := if (half <? r) || ((r =? half) && Z.odd q) then q + 1 else q in
    Z.shiftl q' e.

(** [math.Min] on two such values. *)
Definition Min (x y : Z) : Z := Z.min x y.

(** [int(f)] for an integral [f] within the range of [int]. *)
Definition int_of_float64 (f : Z) : Z := f.

End GoMath.

(** ** Collaborators: context, lumberjackx, logrus, echo *)

(** [error], by the text of [Error()]; [nil] is [None] at [option error]. *)
Definition error := string.

Module context.
(** A [context.Context]; durations are [time.Duration], in nanoseconds. *)
Inductive Context :=
| Background
| WithTimeout (parent : Context) (timeout : Z).
End context.

Module time.
Definition Nanosecond : Z := 1.
Definition Second : Z := 1000000000 * Nanosecond.
End time.

Module lumberjackx.
Record Logger := {
  Ctx : context.Context;
  Filename : string;
  MaxSize : Z;
  MaxBackups : Z;
  MaxAge : Z;
  Compress : bool;
  LocalTime : bool
}.
End lumberjackx.

Module logrus.

Inductive Level :=
| PanicLevel | FatalLevel | ErrorLevel | WarnLevel
| InfoLevel | DebugLevel | TraceLevel.

(** The [uint32] behind a [Level]. *)
Definition Level_value (l : Level) : Z :=
  match l with
  | PanicLevel => 0 | FatalLevel => 1 | ErrorLevel => 2 | WarnLevel => 3
  | InfoLevel => 4 | DebugLevel => 5 | TraceLevel => 6
  end.

(** The [io.Writer]s this package hands to a logger. *)
Inductive Writer :=
| os_Stdout
| os_Stderr
| Rotating (w : lumberjackx.Logger).

(** [log.TextFormatter], by the one field the package sets. *)
Record TextFormatter := { QuoteEmptyFields : bool }.

Inductive Formatter :=
| DefaultFormatter
| Text (f : TextFormatter).

Record Logger := {
  Out : Writer;
  Formatter_ : Formatter;
  Level_ : Level
}.

(** [logger.IsLevelEnabled(level)]: [logger.level() >= level]. *)
Definition IsLevelEnabled (lg : Logger) (lvl : Level) : bool :=
  Level_value lvl <=? Level_value (Level_ lg).

End logrus.

Module echo.

Definition HeaderContentType : string := "Content-Type".

(** [http.Header]: [map[string][]string] under canonical keys. *)
Definition Header_Get (h : gmap string (list string)) (key : string) : string :=
  match h !! key with
  | Some (v :: _) => v
  | _ => EmptyString
  end.

Record Request := {
  URL_String : string;
  Request_Header : gmap string (list string)
}.

Record Response := { Response_Header : gmap string (list string) }.

(** [echo.Context], by what the handler reads from it. *)
Record Context := { Request_ : Request; Response_ : Response }.

Record Route := { Method : string; Path : string }.

Record CORSConfig := {
  AllowOrigins : list string;
  ExposeHeaders : list string;
  AllowMethods : list string;
  AllowHeaders : list string;
  AllowCredentials : bool
}.

(** The handler closures this package installs, by name. *)
Inductive BodyDumpHandler := dumpBodies.

Inductive Middleware :=
| BodyDumpWithConfig (Handler : BodyDumpHandler)
| LoggerWithConfig (Format : string) (Output : logrus.Writer)
| CORSWithConfig (cfg : CORSConfig).

Record Echo := {
  middleware : list Middleware;
  routes : list Route
}.

(** [echo.New()]. *)
Definition New : Echo := {| middleware := []; routes := [] |}.

(** [e.Use(m)]. *)
Definition Use (e : Echo) (m : Middleware) : Echo :=
  {| middleware := middleware e ++ [m]; routes := routes e |}.

(** [e.Routes()]: the routes in the order the call hands them out.  The
    framework collects them from a map, so this order need not be the one
    they were registered in. *)
Definition Routes (e : Echo) : list Route := routes e.

End echo.

(** ** The world the package acts on *)

(** An operand of a formatting call. *)
Inductive Value :=
| VStr (s : string)
| VInt (n : Z)
| VErr (e : error)
| VEcho (e : echo.Echo).

(** What leaves the package, in order. *)
Inductive Event :=
| Logged (level : logrus.Level) (format : string) (args : list Value)
| EchoStart (e : echo.Echo) (addr : string)
| EchoShutdown (e : echo.Echo) (ctx : context.Context).

(** A [*logrus.Logger]: the standard logger of pkgx/log, or one made later. *)
Inductive LoggerRef :=
| StandardRef
| MadeRef (l : positive).

Record World := {
  std : logrus.Logger;
  made : gmap positive logrus.Logger;
  settings : gmap string string;
  trace : list Event
}.

Definition M (A : Type) : Type := World -> option (A * World).

Definition ret {A} (a : A) : M A := fun w => Some (a, w).

Definition bind {A B} (c : M A) (k : A -> M B) : M B :=
  fun w => match c w with
           | Some (a, w') => k a w'
           | None => None
           end.

(** A Go panic. *)
Definition panic {A} : M A := fun _ => None.

Notation "x <- c1 ;; c2" := (bind c1 (fun x => c2))
  (at level 100, c1 at next level, right associativity).
Notation "c1 ;; c2" := (bind c1 (fun _ => c2))
  (at level 100, right associativity).

Definition emit (ev : Event) : M unit :=
  fun w => Some (tt, {| std := std w; made := made w; settings := settings w;
                        trace := trace w ++ [ev] |}).

Fixpoint forEach {A} (l : list A) (body : A -> M unit) : M unit :=
  match l with
  | [] => ret tt
  | x :: l' => body x ;; forEach l' body
  end.

Definition set_std (w : World) (lg : logrus.Logger) : World :=
  {| std := lg; made := made w; settings := settings w; trace := trace w |}.

Definition set_made (w : World) (m : gmap positive logrus.Logger) : World :=
  {| std := std w; made := m; settings := settings w; trace := trace w |}.

(** Reading and writing through a [*logrus.Logger]; a dangling one panics. *)
Definition load (r : LoggerRef) : M logrus.Logger :=
  fun w => match r with
           | StandardRef => Some (std w, w)
           | MadeRef l => match made w !! l with
                          | Some lg => Some (lg, w)
                          | None => None
                          end
           end.

Definition store (r : LoggerRef) (lg : logrus.Logger) : M unit :=
  fun w => match r with
           | StandardRef => Some (tt, set_std w lg)
           | MadeRef l => Some (tt, set_made w (<[l := lg]> (made w)))
           end.

Module LoggerOps.
Import logrus.

Definition SetOutput (r : LoggerRef) (out : Writer) : M unit :=
  lg <- load r ;;
  store r {| Out := out; Formatter_ := Formatter_ lg; Level_ := Level_ lg |}.

Definition SetLevel (r : LoggerRef) (level : Level) : M unit :=
  lg <- load r ;;
  store r {| Out := Out lg; Formatter_ := Formatter_ lg; Level_ := level |}.

Definition SetFormatter (r : LoggerRef) (f : Formatter) : M unit :=
  lg <- load r ;;
  store r {| Out := Out lg; Formatter_ := f; Level_ := Level_ lg |}.

End LoggerOps.

Module log.

(** Modelled from the spec: pkgx/log is not among the sources.  Section 9
    speaks of process-wide logger state, a single shared logger instance,
    ambient and global: that instance is [std] of the world, which
    [StandardLogger] returns. *)
Definition StandardLogger : LoggerRef := StandardRef.

(** Modelled from the spec: pkgx/log is not among the sources.  The
    package-level [Infof] goes through the single shared logger instance
    of section 9; the call is recorded, [delivery] says where that
    instance sends it. *)
Definition Infof (format : string) (args : list Value) : M unit :=
  emit (Logged logrus.InfoLevel format args).

(** Modelled from the spec: pkgx/log is not among the sources; as [Infof],
    at the error level. *)
Definition Errorf (format : string) (args : list Value) : M unit :=
  emit (Logged logrus.ErrorLevel format args).

(** Modelled from the spec: pkgx/log is not among the sources.  The spec
    names one shared logger instance and says nothing of others; [New],
    which fills the empty [Logger] field of a gateway, is taken to make a
    further logger, apart from the shared instance, set up as [logrus.New]
    sets one up. *)
Definition New : M LoggerRef :=
  fun w =>
    let l := fresh (dom (made w)) in
    let lg := {| logrus.Out := logrus.os_Stderr;
                 logrus.Formatter_ := logrus.DefaultFormatter;
                 logrus.Level_ := logrus.InfoLevel |} in
    Some (MadeRef l, set_made w (<[l := lg]> (made w))).

(** Modelled from the spec: pkgx/log is not among the sources.  Where the
    shared instance sends a recorded call, if its level lets the call
    through: its writer and its formatter. *)
Definition delivery (w : World) (ev : Event)
  : option (logrus.Writer * logrus.Formatter) :=
  match ev with
  | Logged level _ _ =>
      if logrus.IsLevelEnabled (std w) level
      then Some (logrus.Out (std w), logrus.Formatter_ (std w))
      else None
  | _ => None
  end.

End log.

Module viperx.

(** Modelled from the spec: pkgx/viperx is not among the sources.  Section
    6: the access-log format is configurable via an external override
    string supplied through configuration, with a default. *)
Definition GetString (key default : string) : M string :=
  fun w => Some (match settings w !! key with
                 | Some v => v
                 | None => default
                 end, w).

End viperx.

Module fmt.

(** The text [%v] prints for an operand; what it prints for the framework
    object depends on state this model does not hold. *)
Definition text (v : Value) : option string :=
  match v with
  | VStr s => Some s
  | VInt n => Some (GoStrings.Itoa n)
  | VErr e => Some e
  | VEcho _ => None
  end.

(** [fmt.Sprintf] for the verbs [%v] and [%s], the operands given by their
    text; [%%] is a percent sign, a verb without operand prints
    [%!v(MISSING)]. *)
Fixpoint Sprintf (format : string) (args : list string) : string :=
  match format with
  | EmptyString => EmptyString
  | String "%" (String c rest as tail) =>
      if Ascii.eqb c "v" || Ascii.eqb c "s" then
        match args with
        | a :: args' => a ++ Sprintf rest args'
        | [] => "%!" ++ String c "(MISSING)" ++ Sprintf rest []
        end
      else if Ascii.eqb c "%" then String "%" (Sprintf rest args)
      else String "%" (Sprintf tail args)
  | String c rest => String c (Sprintf rest args)
  end.

(** The message of a formatting call, when every operand has a text. *)
Definition message (format : string) (args : list Value) : option string :=
  Sprintf format <$> mapM text args.

End fmt.

(** How a call of [e.Start(addr)] ends.  The call comes back only when the
    server no longer serves, and then always with an error: the address
    could not be bound, or the address was bound and the server served until
    it was closed ([http.Server.Serve] always returns a non-nil error, after
    a shutdown [http.ErrServerClosed]). *)
Inductive Started :=
| BindFailed (err : error)
| ServedUntil (err : error).

Definition Started_error (started : Started) : error :=
  match started with
  | BindFailed err => err
  | ServedUntil err => err
  end.

Definition ErrServerClosed : error := "http: Server closed".

(** [e.Start(addr)]: recorded; it returns the error its run ends with. *)
Definition echo_Start (e : echo.Echo) (addr : string) (started : Started)
  : M (option error) :=
  emit (EchoStart e addr) ;; ret (Some (Started_error started)).

(** [e.Shutdown(ctx)]: recorded; what the server answers is not decided by
    this package, the call returns the answer it is given. *)
Definition echo_Shutdown (e : echo.Echo) (ctx : context.Context)
    (result : option error) : M (option error) :=
  emit (EchoShutdown e ctx) ;; ret result.

(** [len(b)] and [b[:hi]] on a byte slice; slicing out of range panics. *)
Definition len (b : list byte) : Z := Z.of_nat (length b).

Definition slice_to (b : list byte) (hi : Z) : M (list byte) :=
  if (0 <=? hi) && (hi <=? len b) then ret (firstn (Z.to_nat hi) b) else panic.

(** ** apigateway.go *)

Record LogConfig := {
  Output : string;
  Level : string;
  Size : Z;
  BackNum : Z;
  AgeDays : Z
}.

Record ApiGateway := {
  Echo : echo.Echo;
  Logger : option LoggerRef
}.

Module listing.
(** The anonymous [struct { m string; p string }] of [showEcho]. *)
Record entry := { m : string; p : string }.
End listing.

Definition isPrintableTextContent (contentType : string) : bool :=
  if GoStrings.HasPrefix contentType "text/" ||
     GoStrings.Contains contentType "json" ||
     GoStrings.Contains contentType "xml" ||
     GoStrings.Contains contentType "html"
  then true
  else false.

Definition printableFormat : string :=
  "%v, reqBody[%v]:{%v}, resBody[%v]:{%v}".

Definition opaqueFormat : string :=
  "%v, reqBody[%v]:{%v}, resBody[%v]:[Non-printable ContentType:%v]".

(** The [Handler] closure given to [middleware.BodyDumpWithConfig]. *)
Definition configEcho_Handler (c : echo.Context) (reqBody resBody : list byte)
  : M unit :=
  let lq := GoMath.int_of_float64
              (GoMath.Min (GoMath.float64_of_int (len reqBody)) 2000) in
  let lp := GoMath.int_of_float64
              (GoMath.Min (GoMath.float64_of_int (len resBody)) 2000) in
  let contentType :=
    echo.Header_Get (echo.Response_Header (echo.Response_ c))
                    echo.HeaderContentType in
  if isPrintableTextContent contentType || (len resBody =? 0) then
    rq <- slice_to reqBody lq ;;
    rp <- slice_to resBody lp ;;
    log.Infof printableFormat
      [VStr (echo.URL_String (echo.Request_ c)); VInt (len reqBody);
       VStr (string_of_list_byte rq); VInt (len resBody);
       VStr (string_of_list_byte rp)]
  else
    rq <- slice_to reqBody lq ;;
    log.Infof opaqueFormat
      [VStr (echo.URL_String (echo.Request_ c)); VInt (len reqBody);
       VStr (string_of_list_byte rq); VInt (len resBody);
       VStr contentType].

(** What the body-dump middleware calls once the response is produced. *)
Definition run_BodyDumpHandler (h : echo.BodyDumpHandler)
  : echo.Context -> list byte -> list byte -> M unit :=
  match h with
  | echo.dumpBodies => configEcho_Handler
  end.

Definition accessFormat : string :=
  "${time_rfc3339} ${status} ${method} ${latency_human} ${host} ${remote_ip} ${bytes_in} ${bytes_out} ${uri} ${id} ${error}"
  ++ String (ascii_of_nat 10) EmptyString.

Definition configEcho (e : echo.Echo) : M echo.Echo :=
  let format := accessFormat in
  let e := echo.Use e (echo.BodyDumpWithConfig echo.dumpBodies) in
  f <- viperx.GetString "sys.accessFormat" format ;;
  lg <- load log.StandardLogger ;;
  let e := echo.Use e (echo.LoggerWithConfig f (logrus.Out lg)) in
  let e := echo.Use e (echo.CORSWithConfig
             {| echo.AllowOrigins := ["*"];
                echo.ExposeHeaders := ["*"];
                echo.AllowMethods := ["*"];
                echo.AllowHeaders := ["*"];
                echo.AllowCredentials := true |}) in
  ret e.

Definition startEcho (e : echo.Echo) (addr : string) (started : Started)
  : M (option error) :=
  err <- echo_Start e addr started ;;
  match err with
  | Some er =>
      log.Errorf "Failed to bind address: %s, err[%v]" [VStr addr; VErr er] ;;
      ret (Some er)
  | None =>
      log.Infof "Start service listen on: %s" [VStr addr] ;;
      ret None
  end.

Definition shutdownEcho (e : echo.Echo) (stopped : option error) : M unit :=
  let ctx := context.WithTimeout context.Background (5 * time.Second) in
  err <- echo_Shutdown e ctx stopped ;;
  match err with
  | Some _ => log.Errorf "Failed to close Echo: %v" [VEcho e]
  | None => ret tt
  end ;;
  log.Infof "Close service: %v" [VEcho e].

Section Gateway.

(** [logrus.ParseLevel] and [sort.Slice], as the libraries provide them. *)
Variable ParseLevel : string -> logrus.Level * option error.
Variable sort_Slice : forall A : Type, (A -> A -> bool) -> list A -> list A.

Definition initAccessLog (agw : ApiGateway) (ctx : context.Context)
    (lc : LogConfig) : M (ApiGateway * option error) :=
  agw <- match Logger agw with
         | None => l <- log.New ;; ret {| Echo := Echo agw; Logger := Some l |}
         | Some _ => ret agw
         end ;;
  let '(level, err) := ParseLevel (Level lc) in
  match err with
  | Some er => ret (agw, Some er)
  | None =>
      match Logger agw with
      | None => panic
      | Some lg =>
          (if String.eqb (Output lc) "stdout" then
             LoggerOps.SetOutput lg logrus.os_Stdout
           else if String.eqb (Output lc) "stderr" then
             LoggerOps.SetOutput lg logrus.os_Stderr
           else if String.eqb (Output lc) EmptyString then
             LoggerOps.SetOutput lg logrus.os_Stdout
           else
             LoggerOps.SetOutput lg (logrus.Rotating
               {| lumberjackx.Ctx := ctx;
                  lumberjackx.Filename := Output lc;
                  lumberjackx.MaxSize := Size lc;
                  lumberjackx.MaxBackups := BackNum lc;
                  lumberjackx.MaxAge := AgeDays lc;
                  lumberjackx.Compress := true;
                  lumberjackx.LocalTime := true |})) ;;
          LoggerOps.SetLevel lg level ;;
          LoggerOps.SetFormatter lg
            (logrus.Text {| logrus.QuoteEmptyFields := true |}) ;;
          ret (agw, None)
      end
  end.

Definition New (ctx : context.Context) (logConfig : LogConfig)
  : M (option ApiGateway * option error) :=
  let agw := {| Echo := echo.New; Logger := None |} in
  r <- initAccessLog agw ctx logConfig ;;
  match snd r with
  | Some err => ret (None, Some err)
  | None =>
      e <- configEcho (Echo (fst r)) ;;
      ret (Some {| Echo := e; Logger := Logger (fst r) |}, None)
  end.

Definition showEcho (e : echo.Echo) : M unit :=
  let routes :=
    map (fun r => {| listing.m := echo.Method r; listing.p := echo.Path r |})
        (echo.Routes e) in
  let routes :=
    sort_Slice _ (fun ri rj => String.ltb (listing.p ri) (listing.p rj))
               routes in
  forEach routes
    (fun r => log.Infof "%s %s" [VStr (listing.m r); VStr (listing.p r)]).

Definition Run (agw : ApiGateway) (ip port : string) (started : Started)
  : M (option error) :=
  showEcho (Echo agw) ;;
  startEcho (Echo agw) (fmt.Sprintf "%s:%s" [ip; port]) started.

Definition Stop (agw : ApiGateway) (stopped : option error) : M unit :=
  shutdownEcho (Echo agw) stopped.

End Gateway.

(** ** Stopping, with the clock *)

(** The time after which [ctx] is done, counted from when it was made;
    [None]: it is never done. *)
Fixpoint context_Deadline (ctx : context.Context) : option Z :=
  match ctx with
  | context.Background => None
  | context.WithTimeout parent timeout =>
      match context_Deadline parent with
      | Some d => Some (Z.min d timeout)
      | None => Some timeout
      end
  end.

(** [ctx.Err()] of a context whose deadline has passed. *)
Definition DeadlineExceeded : error := "context deadline exceeded".

(** [e.Shutdown(ctx)] by the contract of [Shutdown] of [http.Server]: it waits
    until the connections are idle, which takes [drain] ([None]: they never
    are), and then returns nil; if [ctx] is done before that it returns
    [ctx.Err()].  The answer comes with the time the call has taken;
    [None]: the call does not come back. *)
Definition Shutdown_answer (ctx : context.Context) (drain : option Z)
  : option (Z * option error) :=
  match context_Deadline ctx, drain with
  | Some d, Some n =>
      if n <=? d then Some (n, None) else Some (d, Some DeadlineExceeded)
  | Some d, None => Some (d, Some DeadlineExceeded)
  | None, Some n => Some (n, None)
  | None, None => None
  end.

(** How a call ends: it returns, after some time, or blocks for good, or
    panics. *)
Inductive Ended :=
| Returned (w : World) (elapsed : Z)
| Blocked
| Panicked.

(** [shutdownEcho] against a server whose connections need [drain] to go
    idle: the lines of the function once more, with the time the call of
    [e.Shutdown] takes; the log calls are taken to come back at once. *)
Definition shutdownEcho_clocked (e : echo.Echo) (drain : option Z) (w : World)
  : Ended :=
  let ctx := context.WithTimeout context.Background (5 * time.Second) in
  match Shutdown_answer ctx drain with
  | None => Blocked
  | Some (elapsed, answer) =>
      match (err <- echo_Shutdown e ctx answer ;;
             match err with
             | Some _ => log.Errorf "Failed to close Echo: %v" [VEcho e]
             | None => ret tt
             end ;;
             log.Infof "Close service: %v" [VEcho e]) w with
      | Some (_, w') => Returned w' elapsed
      | None => Panicked
      end
  end.

Definition Stop_clocked (agw : ApiGateway) (drain : option Z) (w : World)
  : Ended :=
  shutdownEcho_clocked (Echo agw) drain w.

(** ** What [sort.Slice] promises, and two sorts that keep the promise *)

Definition StrictWeakOrder {A} (less : A -> A -> bool) : Prop :=
  (forall x, less x x = false) /\
  (forall x y z, less x y = true -> less y z = true -> less x z = true) /\
  (forall x y z, less x y = false -> less y z = false -> less x z = false).

(** The documented contract of [sort.Slice]: the slice is rearranged so that
    no element is less than an earlier one; nothing is said about elements
    that compare equal ("the sort is not guaranteed to be stable"). *)
Definition SortSliceContract
    (sort : forall A : Type, (A -> A -> bool) -> list A -> list A) : Prop :=
  forall (A : Type) (less : A -> A -> bool) (l : list A),
    StrictWeakOrder less ->
    Permutation l (sort A less l) /\
    StronglySorted (fun x y => less y x = false) (sort A less l).

Module Sorts.

(** Put [x] behind every element it is not less than. *)
Fixpoint insert_behind {A} (less : A -> A -> bool) (x : A) (l : list A)
  : list A :=
  match l with
  | [] => [x]
  | y :: l' =>
      if less x y then x :: y :: l' else y :: insert_behind less x l'
  end.

(** Put [x] in front of the first element that is not less than it. *)
Fixpoint insert_front {A} (less : A -> A -> bool) (x : A) (l : list A)
  : list A :=
  match l with
  | [] => [x]
  | y :: l' =>
      if less y x then y :: insert_front less x l' else x :: y :: l'
  end.

(** An insertion sort that reverses elements comparing equal. *)
Definition reversing (A : Type) (less : A -> A -> bool) (l : list A)
  : list A :=
  fold_right (insert_behind less) [] l.

(** An insertion sort that keeps elements comparing equal in order. *)
Definition keeping (A : Type) (less : A -> A -> bool) (l : list A)
  : list A :=
  fold_right (insert_front less) [] l.

End Sorts.

(** [sort.Slice] as the Go library implements it since Go 1.19: a
    pattern-defeating quicksort over the indices of the slice
    ([pdqsort_func] and its helpers), with insertion sort for at most 12
    elements.  Indices are [int]s; every loop carries the number of rounds it
    can take at most.  Inside the sort every index is in range, where
    [Less] and [Swap] are the slice's own. *)
Module GoSort.

Section Sorting.
Context {A : Type} (less : A -> A -> bool).

(** [data[i]]. *)
Definition elem (data : list A) (i : Z) : option A :=
  if i <? 0 then None else data !! Z.to_nat i.

(** [data.Less(i, j)]: the caller's [less] on the elements at [i], [j]. *)
Definition Less (data : list A) (i j : Z) : bool :=
  match elem data i, elem data j with
  | Some x, Some y => less x y
  | _, _ => false
  end.

(** [data.Swap(i, j)]. *)
Definition Swap (data : list A) (i j : Z) : list A :=
  match elem data i, elem data j with
  | Some x, Some y => <[Z.to_nat i := y]> (<[Z.to_nat j := x]> data)
  | _, _ => data
  end.

(** [for j := i; j > a && data.Less(j, j-1); j-- { data.Swap(j, j-1) }] *)
Fixpoint insertionSort_inner (fuel : nat) (data : list A) (a j : Z) : list A :=
  match fuel with
  | O => data
  | S fuel' =>
      if (a <? j) && Less data j (j - 1)
      then insertionSort_inner fuel' (Swap data j (j - 1)) a (j - 1)
      else data
  end.

Fixpoint insertionSort_outer (fuel : nat) (data : list A) (a b i : Z) : list A :=
  match fuel with
  | O => data
  | S fuel' =>
      if i <? b
      then insertionSort_outer fuel'
             (insertionSort_inner (Z.to_nat (i - a)) data a i) a b (i + 1)
      else data
  end.

Definition insertionSort_func (data : list A) (a b : Z) : list A :=
  insertionSort_outer (Z.to_nat (b - a)) data a b (a + 1).

Fixpoint siftDown_loop (fuel : nat) (data : list A) (root hi first : Z) : list A :=
  match fuel with
  | O => data
  | S fuel' =>
      let child := 2 * root + 1 in
      if hi <=? child then data
      else
        let child :=
          if (child + 1 <? hi) && Less data (first + child) (first + child + 1)
          then child + 1 else child in
        if negb (Less data (first + root) (first + child)) then data
        else siftDown_loop fuel' (Swap data (first + root) (first + child))
                           child hi first
  end.

Definition siftDown_func (data : list A) (lo hi first : Z) : list A :=
  siftDown_loop (Z.to_nat hi) data lo hi first.

Fixpoint heapSort_build (fuel : nat) (data : list A) (i hi first : Z) : list A :=
  match fuel with
  | O => data
  | S fuel' =>
      if 0 <=? i
      then heapSort_build fuel' (siftDown_func data i hi first) (i - 1) hi first
      else data
  end.

Fixpoint heapSort_pop (fuel : nat) (data : list A) (i lo first : Z) : list A :=
  match fuel with
  | O => data
  | S fuel' =>
      if 0 <=? i
      then heapSort_pop fuel'
             (siftDown_func (Swap data first (first + i)) lo i first)
             (i - 1) lo first
      else data
  end.

Definition heapSort_func (data : list A) (a b : Z) : list A :=
  let first := a in
  let lo := 0 in
  let hi := b - a in
  let data := heapSort_build (Z.to_nat hi + 1) data (Z.quot (hi - 1) 2) hi first in
  heapSort_pop (Z.to_nat hi + 1) data (hi - 1) lo first.

Inductive sortedHint := unknownHint | increasingHint | decreasingHint.

Definition order2_func (data : list A) (a b swaps : Z) : Z * Z * Z :=
  if Less data b a then (b, a, swaps + 1) else (a, b, swaps).

Definition median_func (data : list A) (a b c swaps : Z) : Z * Z :=
  let '(a, b, swaps) := order2_func data a b swaps in
  let '(b, c, swaps) := order2_func data b c swaps in
  let '(a, b, swaps) := order2_func data a b swaps in
  (b, swaps).

Definition medianAdjacent_func (data : list A) (a swaps : Z) : Z * Z :=
  median_func data (a - 1) a (a + 1) swaps.

Definition choosePivot_func (data : list A) (a b : Z) : Z * sortedHint :=
  let shortestNinther := 50 in
  let maxSwaps := 4 * 3 in
  let l := b - a in
  let swaps := 0 in
  let i := a + Z.quot l 4 * 1 in
  let j := a + Z.quot l 4 * 2 in
  let k := a + Z.quot l 4 * 3 in
  let '(j, swaps) :=
    if 8 <=? l then
      let '(i, j, k, swaps) :=
        if shortestNinther <=? l then
          let '(i, swaps) := medianAdjacent_func data i swaps in
          let '(j, swaps) := medianAdjacent_func data j swaps in
          let '(k, swaps) := medianAdjacent_func data k swaps in
          (i, j, k, swaps)
        else (i, j, k, swaps) in
      median_func data i j k swaps
    else (j, swaps) in
  if swaps =? 0 then (j, increasingHint)
  else if swaps =? maxSwaps then (j, decreasingHint)
  else (j, unknownHint).

Fixpoint reverseRange_loop (fuel : nat) (data : list A) (i j : Z) : list A :=
  match fuel with
  | O => data
  | S fuel' =>
      if i <? j then reverseRange_loop fuel' (Swap data i j) (i + 1) (j - 1)
      else data
  end.

Definition reverseRange_func (data : list A) (a b : Z) : list A :=
  reverseRange_loop (Z.to_nat (b - a)) data a (b - 1).

(** [for i < b && !data.Less(i, i-1) { i++ }] *)
Fixpoint ascending_run (fuel : nat) (data : list A) (b i : Z) : Z :=
  match fuel with
  | O => i
  | S fuel' =>
      if (i <? b) && negb (Less data i (i - 1))
      then ascending_run fuel' data b (i + 1) else i
  end.

(** [for j := i - 1; j >= 1; j-- { if !data.Less(j, j-1) { break }; data.Swap(j, j-1) }] *)
Fixpoint shift_left (fuel : nat) (data : list A) (j : Z) : list A :=
  match fuel with
  | O => data
  | S fuel' =>
      if 1 <=? j then
        if negb (Less data j (j - 1)) then data
        else shift_left fuel' (Swap data j (j - 1)) (j - 1)
      else data
  end.

(** [for j := i + 1; j < b; j++ { if !data.Less(j, j-1) { break }; data.Swap(j, j-1) }] *)
Fixpoint shift_right (fuel : nat) (data : list A) (b j : Z) : list A :=
  match fuel with
  | O => data
  | S fuel' =>
      if j <? b then
        if negb (Less data j (j - 1)) then data
        else shift_right fuel' (Swap data j (j - 1)) b (j + 1)
      else data
  end.

Fixpoint partialInsertionSort_steps (steps : nat) (data : list A) (a b i : Z)
  : list A * bool :=
  let shortestShifting := 50 in
  match steps with
  | O => (data, false)
  | S steps' =>
      let i := ascending_run (Z.to_nat (b - i)) data b i in
      if i =? b then (data, true)
      else if b - a <? shortestShifting then (data, false)
      else
        let data := Swap data i (i - 1) in
        let data := if 2 <=? i - a
                    then shift_left (Z.to_nat i) data (i - 1) else data in
        let data := if 2 <=? b - i
                    then shift_right (Z.to_nat (b - i)) data b (i + 1) else data in
        partialInsertionSort_steps steps' data a b i
  end.

Definition partialInsertionSort_func (data : list A) (a b : Z) : list A * bool :=
  let maxSteps := 5%nat in
  partialInsertionSort_steps maxSteps data a b (a + 1).

(** [for i <= j && data.Less(i, a) { i++ }] *)
Fixpoint skip_less (fuel : nat) (data : list A) (a i j : Z) : Z :=
  match fuel with
  | O => i
  | S fuel' =>
      if (i <=? j) && Less data i a then skip_less fuel' data a (i + 1) j else i
  end.

(** [for i <= j && !data.Less(j, a) { j-- }] *)
Fixpoint skip_not_less (fuel : nat) (data : list A) (a i j : Z) : Z :=
  match fuel with
  | O => j
  | S fuel' =>
      if (i <=? j) && negb (Less data j a)
      then skip_not_less fuel' data a i (j - 1) else j
  end.

Fixpoint partition_loop (fuel : nat) (data : list A) (a i j : Z)
  : list A * Z * Z :=
  match fuel with
  | O => (data, i, j)
  | S fuel' =>
      let i := skip_less (Z.to_nat (j - i + 1)) data a i j in
      let j := skip_not_less (Z.to_nat (j - i + 1)) data a i j in
      if j <? i then (data, i, j)
      else partition_loop fuel' (Swap data i j) a (i + 1) (j - 1)
  end.

Definition partition_func (data : list A) (a b pivot : Z) : list A * Z * bool :=
  let data := Swap data a pivot in
  let i := a + 1 in
  let j := b - 1 in
  let i := skip_less (Z.to_nat (j - i + 1)) data a i j in
  let j := skip_not_less (Z.to_nat (j - i + 1)) data a i j in
  if j <? i then (Swap data j a, j, true)
  else
    let data := Swap data i j in
    let i := i + 1 in
    let j := j - 1 in
    let '(data, i, j) := partition_loop (Z.to_nat (j - i + 2)) data a i j in
    (Swap data j a, j, false).

(** [for i <= j && !data.Less(a, i) { i++ }] *)
Fixpoint skip_not_greater (fuel : nat) (data : list A) (a i j : Z) : Z :=
  match fuel with
  | O => i
  | S fuel' =>
      if (i <=? j) && negb (Less data a i)
      then skip_not_greater fuel' data a (i + 1) j else i
  end.

(** [for i <= j && data.Less(a, j) { j-- }] *)
Fixpoint skip_greater (fuel : nat) (data : list A) (a i j : Z) : Z :=
  match fuel with
  | O => j
  | S fuel' =>
      if (i <=? j) && Less data a j then skip_greater fuel' data a i (j - 1) else j
  end.

Fixpoint partitionEqual_loop (fuel : nat) (data : list A) (a i j : Z)
  : list A * Z :=
  match fuel with
  | O => (data, i)
  | S fuel' =>
      let i := skip_not_greater (Z.to_nat (j - i + 1)) data a i j in
      let j := skip_greater (Z.to_nat (j - i + 1)) data a i j in
      if j <? i then (data, i)
      else partitionEqual_loop fuel' (Swap data i j) a (i + 1) (j - 1)
  end.

Definition partitionEqual_func (data : list A) (a b pivot : Z) : list A * Z :=
  let data := Swap data a pivot in
  partitionEqual_loop (Z.to_nat (b - a) + 1) data a (a + 1) (b - 1).

(** [bits.Len(uint(x))] for [x >= 0]. *)
Definition bits_Len (x : Z) : Z := if x <=? 0 then 0 else Z.log2 x + 1.

Definition uint64 (x : Z) : Z := Z.land x (Z.ones 64).

(** [xorshift.Next]: [r ^= r << 13; r ^= r >> 7; r ^= r << 17] on a
    [uint64]. *)
Definition xorshift_Next (r : Z) : Z :=
  let r := Z.lxor r (uint64 (Z.shiftl r 13)) in
  let r := Z.lxor r (Z.shiftr r 7) in
  let r := Z.lxor r (uint64 (Z.shiftl r 17)) in
  r.

Definition nextPowerOfTwo (length : Z) : Z := Z.shiftl 1 (bits_Len length).

Fixpoint breakPatterns_loop (n : nat) (data : list A) (a length idx i random modulus : Z)
  : list A :=
  match n with
  | O => data
  | S n' =>
      let random := xorshift_Next random in
      let other := Z.land random (modulus - 1) in
      let other := if length <=? other then other - length else other in
      breakPatterns_loop n' (Swap data (idx - 1 + i) (a + other))
                         a length idx (i + 1) random modulus
  end.

Definition breakPatterns_func (data : list A) (a b : Z) : list A :=
  let length := b - a in
  if 8 <=? length then
    let random := length in
    let modulus := nextPowerOfTwo length in
    let idx := a + Z.quot length 4 * 2 - 1 in
    breakPatterns_loop 3 data a length idx 0 random modulus
  else data.

Fixpoint pdqsort_loop (fuel : nat) (data : list A) (a b limit : Z)
    (wasBalanced wasPartitioned : bool) : list A :=
  let maxInsertion := 12 in
  match fuel with
  | O => data
  | S fuel' =>
      let length := b - a in
      if length <=? maxInsertion then insertionSort_func data a b
      else if limit =? 0 then heapSort_func data a b
      else
        let '(data, limit) :=
          if negb wasBalanced then (breakPatterns_func data a b, limit - 1)
          else (data, limit) in
        let '(pivot, hint) := choosePivot_func data a b in
        let '(data, pivot, hint) :=
          match hint with
          | decreasingHint =>
              (reverseRange_func data a b, (b - 1) - (pivot - a), increasingHint)
          | _ => (data, pivot, hint)
          end in
        let '(data, done) :=
          match hint with
          | increasingHint =>
              if wasBalanced && wasPartitioned
              then partialInsertionSort_func data a b
              else (data, false)
          | _ => (data, false)
          end in
        if done then data
        else if (0 <? a) && negb (Less data (a - 1) pivot) then
          let '(data, mid) := partitionEqual_func data a b pivot in
          pdqsort_loop fuel' data mid b limit wasBalanced wasPartitioned
        else
          let '(data, mid, alreadyPartitioned) := partition_func data a b pivot in
          let wasPartitioned := alreadyPartitioned in
          let leftLen := mid - a in
          let rightLen := b - mid in
          let balanceThreshold := Z.quot length 8 in
          if leftLen <? rightLen then
            let wasBalanced := balanceThreshold <=? leftLen in
            let data := pdqsort_loop fuel' data a mid limit true true in
            pdqsort_loop fuel' data (mid + 1) b limit wasBalanced wasPartitioned
          else
            let wasBalanced := balanceThreshold <=? rightLen in
            let data := pdqsort_loop fuel' data (mid + 1) b limit true true in
            pdqsort_loop fuel' data a mid limit wasBalanced wasPartitioned
  end.

Definition pdqsort_func (data : list A) (a b limit : Z) : list A :=
  pdqsort_loop (Z.to_nat (b - a) + 1) data a b limit true true.

End Sorting.

(** [sort.Slice(x, less)]. *)
Definition Slice (A : Type) (less : A -> A -> bool) (x : list A) : list A :=
  let length := Z.of_nat (List.length x) in
  let limit := bits_Len length in
  pdqsort_func less x 0 length limit.

End GoSort.

(** A stand-in for [logrus.ParseLevel] on ASCII level names: the names are
    matched after folding [A-Z] to lower case. *)
Module LevelNames.

Definition lower (c : ascii) : ascii :=
  let n := N_of_ascii c in
  if ((65 <=? n) && (n <=? 90))%N then ascii_of_N (n + 32) else c.

Fixpoint ToLower (s : string) : string :=
  match s with
  | EmptyString => EmptyString
  | String c s' => String (lower c) (ToLower s')
  end.

Definition hexDigit (n : N) : ascii :=
  if (n <? 10)%N then ascii_of_N (48 + n) else ascii_of_N (87 + n).

(** One byte under [%q], for bytes of the ASCII range: a quote and a
    backslash get a backslash, control bytes their escape, the other bytes
    stay. *)
Definition quoteByte (c : ascii) : string :=
  let n := N_of_ascii c in
  let esc (x : string) : string := String (ascii_of_nat 92) x in
  if (n =? 34)%N then esc (String c EmptyString)
  else if (n =? 92)%N then esc (String c EmptyString)
  else if (n =? 7)%N then esc "a"
  else if (n =? 8)%N then esc "b"
  else if (n =? 12)%N then esc "f"
  else if (n =? 10)%N then esc "n"
  else if (n =? 13)%N then esc "r"
  else if (n =? 9)%N then esc "t"
  else if (n =? 11)%N then esc "v"
  else if ((n <? 32)%N || (n =? 127)%N)
    then esc (String "x" (String (hexDigit (n / 16))
                            (String (hexDigit (n mod 16)) EmptyString)))
  else String c EmptyString.

Fixpoint quoteBytes (s : string) : string :=
  match s with
  | EmptyString => EmptyString
  | String c s' => quoteByte c ++ quoteBytes s'
  end.

(** [%q] of an ASCII string. *)
Definition quote (s : string) : string :=
  String (ascii_of_nat 34) (quoteBytes s ++ String (ascii_of_nat 34) EmptyString).

Definition ParseLevel (lvl : string) : logrus.Level * option error :=
  let name := ToLower lvl in
  if String.eqb name "panic" then (logrus.PanicLevel, None)
  else if String.eqb name "fatal" then (logrus.FatalLevel, None)
  else if String.eqb name "error" then (logrus.ErrorLevel, None)
  else if String.eqb name "warn" || String.eqb name "warning"
    then (logrus.WarnLevel, None)
  else if String.eqb name "info" then (logrus.InfoLevel, None)
  else if String.eqb name "debug" then (logrus.DebugLevel, None)
  else if String.eqb name "trace" then (logrus.TraceLevel, None)
  else (logrus.PanicLevel, Some ("not a valid logrus Level: " ++ quote lvl)).

End LevelNames.

(** ** Runs, in summary *)

(** The world after further events. *)
Definition record (w : World) (evs : list Event) : World :=
  {| std := std w; made := made w; settings := settings w;
     trace := trace w ++ evs |}.

(** The bytes of a body that go into the log line. *)
Definition preview (body : list byte) : list byte :=
  firstn (Z.to_nat (Z.min (len body) 2000)) body.

(** The response content type the handler looks at. *)
Definition responseContentType (c : echo.Context) : string :=
  echo.Header_Get (echo.Response_Header (echo.Response_ c))
                  echo.HeaderContentType.

(** The one event the handler leaves, by the branch it takes. *)
Definition previewEvent (c : echo.Context) (reqBody resBody : list byte) : Event :=
  let url := echo.URL_String (echo.Request_ c) in
  if isPrintableTextContent (responseContentType c) || (len resBody =? 0) then
    Logged logrus.InfoLevel printableFormat
      [VStr url; VInt (len reqBody); VStr (string_of_list_byte (preview reqBody));
       VInt (len resBody); VStr (string_of_list_byte (preview resBody))]
  else
    Logged logrus.InfoLevel opaqueFormat
      [VStr url; VInt (len reqBody); VStr (string_of_list_byte (preview reqBody));
       VInt (len resBody); VStr (responseContentType c)].

(** The context with other request headers. *)
Definition withRequestHeader (c : echo.Context) (h : gmap string (list string))
  : echo.Context :=
  {| echo.Request_ :=
       {| echo.URL_String := echo.URL_String (echo.Request_ c);
          echo.Request_Header := h |};
     echo.Response_ := echo.Response_ c |}.

(** ** What the recorder holds *)

(** The handler is handed both bodies as byte slices and writes their
    lengths, [len(reqBody)] and [len(resBody)], into the line.  This reads,
    for every run, "neither slice is longer than 2000 bytes". *)
Definition slices_bounded : Prop :=
  forall (c : echo.Context) (reqBody resBody : list byte) (w : World),
  exists format url n rq m last,
    configEcho_Handler c reqBody resBody w
    = Some (tt, record w
        [Logged logrus.InfoLevel format [url; VInt n; rq; VInt m; last]]) /\
    n <= 2000 /\ m <= 2000.

Definition plainContext : echo.Context :=
  {| echo.Request_ := {| echo.URL_String := "/upload"; echo.Request_Header := ∅ |};
     echo.Response_ := {| echo.Response_Header := ∅ |} |}.

Definition quietWorld : World :=
  {| std := {| logrus.Out := logrus.os_Stderr;
               logrus.Formatter_ := logrus.DefaultFormatter;
               logrus.Level_ := logrus.InfoLevel |};
     made := ∅; settings := ∅; trace := [] |}.

(** ** The route listing *)

(** The routes as [showEcho] copies them, in the order [e.Routes()] gives. *)
Definition entries (e : echo.Echo) : list listing.entry :=
  map (fun r => {| listing.m := echo.Method r; listing.p := echo.Path r |})
      (echo.Routes e).

Definition byPath (ri rj : listing.entry) : bool :=
  String.ltb (listing.p ri) (listing.p rj).

Definition lineEvent (r : listing.entry) : Event :=
  Logged logrus.InfoLevel "%s %s" [VStr (listing.m r); VStr (listing.p r)].

Definition ascendingByPath : list listing.entry -> Prop :=
  StronglySorted (fun a b => String.leb (listing.p a) (listing.p b) = true).

(** This reads, for a given [sort.Slice]: the listing is ascending by path
    and routes with the same path stay in the order they were registered
    in. *)
Definition listing_stable
    (sort : forall A : Type, (A -> A -> bool) -> list A -> list A) : Prop :=
  forall (e : echo.Echo) (w : World),
  exists out,
    showEcho sort e w = Some (tt, record w (map lineEvent out)) /\
    ascendingByPath out /\
    forall path,
      List.filter (fun r => String.eqb (listing.p r) path) out
      = List.filter (fun r => String.eqb (listing.p r) path) (entries e).

Definition route (method path : string) : echo.Route :=
  {| echo.Method := method; echo.Path := path |}.

Definition samePathRoutes : echo.Echo :=
  {| echo.middleware := [];
     echo.routes := [route "GET" "/a"; route "POST" "/a"] |}.

(** Thirteen routes, registered in this order; two share a path. *)
Definition thirteenRoutes : echo.Echo :=
  {| echo.middleware := [];
     echo.routes :=
       [route "GET" "/orders"; route "POST" "/orders";
        route "GET" "/products"; route "GET" "/reports";
        route "POST" "/sessions"; route "GET" "/settings";
        route "GET" "/stats"; route "GET" "/tags"; route "GET" "/teams";
        route "POST" "/tokens"; route "GET" "/users";
        route "POST" "/webhooks"; route "GET" "/health"] |}.

Definition twoRoutes : echo.Echo :=
  {| echo.middleware := [];
     echo.routes := [route "GET" "/b"; route "POST" "/a"] |}.

(** ** Construction *)

(** The writer the [switch] of [initAccessLog] picks. *)
Definition chosenWriter (ctx : context.Context) (lc : LogConfig) : logrus.Writer :=
  if String.eqb (Output lc) "stdout" then logrus.os_Stdout
  else if String.eqb (Output lc) "stderr" then logrus.os_Stderr
  else if String.eqb (Output lc) EmptyString then logrus.os_Stdout
  else logrus.Rotating
         {| lumberjackx.Ctx := ctx;
            lumberjackx.Filename := Output lc;
            lumberjackx.MaxSize := Size lc;
            lumberjackx.MaxBackups := BackNum lc;
            lumberjackx.MaxAge := AgeDays lc;
            lumberjackx.Compress := true;
            lumberjackx.LocalTime := true |}.

(** The logger [log.New] hands out. *)
Definition newLogger : logrus.Logger :=
  {| logrus.Out := logrus.os_Stderr;
     logrus.Formatter_ := logrus.DefaultFormatter;
     logrus.Level_ := logrus.InfoLevel |}.

(** The access-log format in force. *)
Definition formatInForce (w : World) : string :=
  match settings w !! "sys.accessFormat" with
  | Some v => v
  | None => accessFormat
  end.

Definition allowAll : echo.CORSConfig :=
  {| echo.AllowOrigins := ["*"];
     echo.ExposeHeaders := ["*"];
     echo.AllowMethods := ["*"];
     echo.AllowHeaders := ["*"];
     echo.AllowCredentials := true |}.

(** The gateway [New] returns when the level parses. *)
Definition builtGateway (w : World) : ApiGateway :=
  {| Echo := {| echo.middleware :=
                  [echo.BodyDumpWithConfig echo.dumpBodies;
                   echo.LoggerWithConfig (formatInForce w) (logrus.Out (std w));
                   echo.CORSWithConfig allowAll];
                echo.routes := [] |};
     Logger := Some (MadeRef (fresh (dom (made w)))) |}.

Definition fileConfig : LogConfig :=
  {| Output := "/var/log/gateway.log"; Level := "info";
     Size := 100; BackNum := 5; AgeDays := 30 |}.

(** A world in which no server was started. *)
Definition neverStarted (w : World) : Prop :=
  forall e addr, ~ In (EchoStart e addr) (trace w).

(** This reads: [Stop] before any [Start], and [Stop] right after a [Stop],
    do nothing. *)
Definition Stop_is_noop : Prop :=
  forall (agw : ApiGateway) (stopped stopped' : option error) (w w1 : World),
    neverStarted w ->
    Stop agw stopped w = Some (tt, w) /\
    (Stop agw stopped w = Some (tt, w1) ->
     Stop agw stopped' w1 = Some (tt, w1)).

Definition restingGateway : ApiGateway :=
  {| Echo := echo.New; Logger := None |}.

Definition closing : list Event :=
  [EchoShutdown echo.New (context.WithTimeout context.Background 5000000000);
   Logged logrus.InfoLevel "Close service: %v" [VEcho echo.New]].

(** ** Further properties: what they speak of *)

(** The context with another response header. *)
Definition withResponseHeader (c : echo.Context) (h : gmap string (list string))
  : echo.Context :=
  {| echo.Request_ := echo.Request_ c;
     echo.Response_ := {| echo.Response_Header := h |} |}.

(** The three middlewares [configEcho] installs, in their order. *)
Definition installed (w : World) : list echo.Middleware :=
  [echo.BodyDumpWithConfig echo.dumpBodies;
   echo.LoggerWithConfig (formatInForce w) (logrus.Out (std w));
   echo.CORSWithConfig allowAll].

(** The logger [initAccessLog] leaves behind for [lc] at [level]. *)
Definition configuredLogger (ctx : context.Context) (lc : LogConfig)
    (level : logrus.Level) : logrus.Logger :=
  {| logrus.Out := chosenWriter ctx lc;
     logrus.Formatter_ := logrus.Text {| logrus.QuoteEmptyFields := true |};
     logrus.Level_ := level |}.

(** A content type spelled in upper case: [a-z] folded to [A-Z]. *)
Module UpperCase.

Definition upper (c : ascii) : ascii :=
  let n := N_of_ascii c in
  if ((97 <=? n) && (n <=? 122))%N then ascii_of_N (n - 32) else c.

Fixpoint ToUpper (s : string) : string :=
  match s with
  | EmptyString => EmptyString
  | String c s' => String (upper c) (ToUpper s')
  end.

End UpperCase.

(** A response with two content-type values and a further header. *)
Definition mixedContext : echo.Context :=
  {| echo.Request_ := {| echo.URL_String := "/download";
                         echo.Request_Header := ∅ |};
     echo.Response_ :=
       {| echo.Response_Header :=
            {[ "Content-Type" := ["application/octet-stream"; "text/plain"];
               "Content-Length" := ["3"] ]} |} |}.

(** A gateway that holds the standard logger. *)
Definition sharingGateway : ApiGateway :=
  {| Echo := echo.New; Logger := Some StandardRef |}.

Definition stdoutConfig : LogConfig :=
  {| Output := "stdout"; Level := "debug"; Size := 0; BackNum := 0; AgeDays := 0 |}.

Definition bogusConfig : LogConfig :=
  {| Output := "stdout"; Level := "bogus"; Size := 0; BackNum := 0; AgeDays := 0 |}.

(** * Proofs *)

(** ** Strings and numbers *)

Module GoStringsFacts.
Import GoStrings.

Lemma HasPrefix_spec (s p : string) :
  HasPrefix s p = true <-> exists t, s = (p ++ t)%string.
Proof.
  revert s; induction p as [|a p IH]; intros s; simpl.
  - split; [intros _; now exists s | reflexivity].
  - destruct s as [|c s].
    + split; [discriminate | intros [t Ht]; discriminate].
    + rewrite andb_true_iff, Ascii.eqb_eq, IH. split.
      * intros [-> [t ->]]. now exists t.
      * intros [t Ht]. injection Ht as -> ->. split; [reflexivity | now exists t].
Qed.

Lemma Contains_spec (s sub : string) :
  Contains s sub = true <-> exists a b, s = (a ++ sub ++ b)%string.
Proof.
  induction s as [|c s IH].
  - cbn [Contains]. rewrite orb_false_r, HasPrefix_spec. split.
    + intros [t Ht]. now exists EmptyString, t.
    + intros [a [b H]]. destruct a; [now exists b | discriminate].
  - cbn [Contains]. rewrite orb_true_iff, HasPrefix_spec, IH. split.
    + intros [[t Ht] | [a [b H]]].
      * now exists EmptyString, t.
      * exists (String c a), b. now rewrite H.
    + intros [a [b H]]. destruct a as [|c' a].
      * left. now exists b.
      * right. injection H as -> ->. now exists a, b.
Qed.

Lemma append_empty_r (s : string) : (s ++ EmptyString)%string = s.
Proof.
  induction s as [|a s IH]; [reflexivity |].
  change (String a (s ++ EmptyString) = String a s). now rewrite IH.
Qed.

End GoStringsFacts.

Module GoMathFacts.
Import GoMath.

Lemma float64_of_int_exact (n : Z) : n < 2 ^ 53 -> float64_of_int n = n.
Proof.
  intros H. unfold float64_of_int.
  destruct (Z.ltb_spec n (2 ^ 53)); [reflexivity | lia].
Qed.

Lemma float64_of_int_large (n : Z) : 2 ^ 53 <= n -> 2 ^ 52 <= float64_of_int n.
Proof.
  intros H. unfold float64_of_int.
  destruct (Z.ltb_spec n (2 ^ 53)) as [Hlt | _]; [lia |].
  assert (Hlog : 53 <= Z.log2 n).
  { change 53 with (Z.log2 (2 ^ 53)). apply Z.log2_le_mono. exact H. }
  set (e := Z.log2 n - 52). assert (He : 1 <= e) by (unfold e; lia).
  assert (Hq : 2 ^ 52 <= Z.shiftr n e).
  { rewrite Z.shiftr_div_pow2 by lia.
    assert (Hn : 2 ^ Z.log2 n <= n) by (apply Z.log2_spec; lia).
    replace (Z.log2 n) with (52 + e) in Hn by (unfold e; lia).
    rewrite Z.pow_add_r in Hn by lia.
    apply Z.div_le_lower_bound; [apply Z.pow_pos_nonneg; lia | lia]. }
  set (q := Z.shiftr n e) in *.
  assert (0 < 2 ^ e) by (apply Z.pow_pos_nonneg; lia).
  rewrite Z.shiftl_mul_pow2 by lia.
  destruct (_ || _); nia.
Qed.

(** Going through [float64] does not change the minimum with 2000. *)
Lemma Min_float64_of_int (n : Z) :
  int_of_float64 (Min (float64_of_int n) 2000) = Z.min n 2000.
Proof.
  unfold int_of_float64, Min.
  destruct (Z.lt_ge_cases n (2 ^ 53)) as [H | H].
  - now rewrite float64_of_int_exact.
  - pose proof (float64_of_int_large n H).
    assert (2000 < 2 ^ 52) by reflexivity. lia.
Qed.

End GoMathFacts.

Lemma record_record (w : World) (a b : list Event) :
  record (record w a) b = record w (a ++ b).
Proof. unfold record; simpl. now rewrite app_assoc. Qed.

Lemma record_nil (w : World) : record w [] = w.
Proof. destruct w; unfold record; simpl. now rewrite app_nil_r. Qed.

Lemma emit_run (ev : Event) (w : World) : emit ev w = Some (tt, record w [ev]).
Proof. reflexivity. Qed.

Lemma Infof_run (format : string) (args : list Value) (w : World) :
  log.Infof format args w = Some (tt, record w [Logged logrus.InfoLevel format args]).
Proof. reflexivity. Qed.

Lemma Errorf_run (format : string) (args : list Value) (w : World) :
  log.Errorf format args w = Some (tt, record w [Logged logrus.ErrorLevel format args]).
Proof. reflexivity. Qed.

Lemma len_nonneg (b : list byte) : 0 <= len b.
Proof. unfold len; lia. Qed.

(** The cut the handler makes is always in range: it never panics. *)
Lemma slice_to_preview (b : list byte) (w : World) :
  slice_to b (GoMath.int_of_float64
                (GoMath.Min (GoMath.float64_of_int (len b)) 2000)) w
  = Some (preview b, w).
Proof.
  rewrite GoMathFacts.Min_float64_of_int. unfold slice_to, preview.
  pose proof (len_nonneg b).
  destruct (Z.leb_spec 0 (Z.min (len b) 2000)); [| lia].
  destruct (Z.leb_spec (Z.min (len b) 2000) (len b)); [| lia].
  reflexivity.
Qed.

Lemma preview_length (b : list byte) :
  Z.of_nat (length (preview b)) = Z.min (len b) 2000.
Proof.
  unfold preview, len. rewrite length_firstn. lia.
Qed.

Lemma preview_prefix (b : list byte) :
  b = (preview b ++ skipn (Z.to_nat (Z.min (len b) 2000)) b)%list.
Proof. unfold preview. now rewrite firstn_skipn. Qed.

Lemma preview_firstn (b : list byte) : preview b = firstn 2000 b.
Proof.
  unfold preview, len.
  destruct (Z.le_ge_cases (Z.of_nat (length b)) 2000) as [H | H].
  - rewrite Z.min_l by lia. rewrite Nat2Z.id.
    rewrite !firstn_all2; [reflexivity | lia | lia].
  - rewrite Z.min_r by lia. reflexivity.
Qed.

Lemma string_of_list_byte_length (b : list byte) :
  String.length (string_of_list_byte b) = length b.
Proof.
  unfold string_of_list_byte.
  induction b as [|x b IH]; simpl; [reflexivity | now rewrite IH].
Qed.

Lemma Handler_run (c : echo.Context) (reqBody resBody : list byte) (w : World) :
  configEcho_Handler c reqBody resBody w
  = Some (tt, record w [previewEvent c reqBody resBody]).
Proof.
  unfold configEcho_Handler, previewEvent, responseContentType.
  destruct (_ || _); unfold bind;
    rewrite ?slice_to_preview; reflexivity.
Qed.

(** ** The body-preview line *)

(** C1: for every request and response body, the preview that is logged has
    length [min(len, 2000)] and is, byte for byte, the prefix of the body it
    was cut from; this holds for the request preview in every line and for
    the response preview in every line that shows one. *)
Theorem preview_is_exact_prefix
    (c : echo.Context) (reqBody resBody : list byte) (w : World) :
  exists rq rp : string,
    (list_byte_of_string rq = firstn (Z.to_nat (Z.min (len reqBody) 2000)) reqBody /\
     Z.of_nat (String.length rq) = Z.min (len reqBody) 2000 /\
     exists rest, reqBody = (list_byte_of_string rq ++ rest)%list) /\
    (list_byte_of_string rp = firstn (Z.to_nat (Z.min (len resBody) 2000)) resBody /\
     Z.of_nat (String.length rp) = Z.min (len resBody) 2000 /\
     exists rest, resBody = (list_byte_of_string rp ++ rest)%list) /\
    configEcho_Handler c reqBody resBody w
    = Some (tt, record w
        [if isPrintableTextContent (responseContentType c) || (len resBody =? 0)
         then Logged logrus.InfoLevel printableFormat
                [VStr (echo.URL_String (echo.Request_ c)); VInt (len reqBody);
                 VStr rq; VInt (len resBody); VStr rp]
         else Logged logrus.InfoLevel opaqueFormat
                [VStr (echo.URL_String (echo.Request_ c)); VInt (len reqBody);
                 VStr rq; VInt (len resBody); VStr (responseContentType c)]]).
Proof.
  exists (string_of_list_byte (preview reqBody)),
         (string_of_list_byte (preview resBody)).
  rewrite !list_byte_of_string_of_list_byte, !string_of_list_byte_length,
          !preview_length.
  repeat split; try reflexivity.
  - eexists; apply preview_prefix.
  - eexists; apply preview_prefix.
  - rewrite Handler_run. unfold previewEvent. now destruct (_ || _).
Qed.

(** C2: [isPrintableTextContent s] is true exactly when [s] starts with
    "text/" or has "json", "xml" or "html" as a substring, bytes compared
    as they are; the empty string is not printable.  The function is a total
    function of its argument alone. *)
Theorem isPrintable_iff :
  (forall s : string,
     isPrintableTextContent s = true <->
     (exists t, s = "text/" ++ t) \/
     (exists a b, s = a ++ "json" ++ b) \/
     (exists a b, s = a ++ "xml" ++ b) \/
     (exists a b, s = a ++ "html" ++ b)) /\
  isPrintableTextContent EmptyString = false /\
  isPrintableTextContent "application/JSON" = false.
Proof.
  split; [| split; reflexivity].
  intros s. unfold isPrintableTextContent.
  rewrite <- GoStringsFacts.HasPrefix_spec, <- !GoStringsFacts.Contains_spec.
  destruct (GoStrings.HasPrefix s "text/"), (GoStrings.Contains s "json"),
    (GoStrings.Contains s "xml"), (GoStrings.Contains s "html"); simpl;
    intuition discriminate.
Qed.

(** C3: the line is decided by the response alone.  If the response content
    type is printable or the response body is empty, both previews are
    written as they are; otherwise the request preview is written and the
    response field names the response content type.  An empty response body
    never yields the placeholder, and the request headers play no part. *)
Theorem preview_line_decision
    (c : echo.Context) (reqBody resBody : list byte) (w : World) :
  let ct := responseContentType c in
  let url := echo.URL_String (echo.Request_ c) in
  let rq := string_of_list_byte (preview reqBody) in
  let rp := string_of_list_byte (preview resBody) in
  configEcho_Handler c reqBody resBody w
  = Some (tt, record w
      [if isPrintableTextContent ct || (len resBody =? 0)
       then Logged logrus.InfoLevel printableFormat
              [VStr url; VInt (len reqBody); VStr rq; VInt (len resBody); VStr rp]
       else Logged logrus.InfoLevel opaqueFormat
              [VStr url; VInt (len reqBody); VStr rq; VInt (len resBody); VStr ct]]) /\
  fmt.message printableFormat
    [VStr url; VInt (len reqBody); VStr rq; VInt (len resBody); VStr rp]
  = Some (url ++ ", reqBody[" ++ GoStrings.Itoa (len reqBody) ++ "]:{" ++ rq
          ++ "}, resBody[" ++ GoStrings.Itoa (len resBody) ++ "]:{" ++ rp ++ "}") /\
  fmt.message opaqueFormat
    [VStr url; VInt (len reqBody); VStr rq; VInt (len resBody); VStr ct]
  = Some (url ++ ", reqBody[" ++ GoStrings.Itoa (len reqBody) ++ "]:{" ++ rq
          ++ "}, resBody[" ++ GoStrings.Itoa (len resBody)
          ++ "]:[Non-printable ContentType:" ++ ct ++ "]") /\
  configEcho_Handler c reqBody [] w
  = Some (tt, record w
      [Logged logrus.InfoLevel printableFormat
         [VStr url; VInt (len reqBody); VStr rq; VInt 0; VStr EmptyString]]) /\
  (forall h, configEcho_Handler (withRequestHeader c h) reqBody resBody w
             = configEcho_Handler c reqBody resBody w).
Proof.
  intros ct url rq rp.
  split; [| split; [| split; [| split]]].
  - rewrite Handler_run. unfold previewEvent. fold ct url rq rp.
    now destruct (_ || _).
  - reflexivity.
  - reflexivity.
  - rewrite Handler_run. unfold previewEvent. fold ct.
    change (len [] =? 0) with true. now rewrite orb_true_r.
  - intros h. now rewrite !Handler_run.
Qed.

Lemma record_trace_inj (w : World) (a b : list Event) :
  record w a = record w b -> a = b.
Proof.
  unfold record. intros H. injection H as H. now apply app_inv_head in H.
Qed.

(** C4, as stated, fails: with bodies of 2001 bytes the handler holds, and
    reports, slices of 2001 bytes in both directions, of which it copies
    2000 bytes of the request into the line. *)
Lemma slices_not_bounded :
  configEcho_Handler plainContext (repeat x00 2001) (repeat x00 2001) quietWorld
  = Some (tt, record quietWorld
      [Logged logrus.InfoLevel opaqueFormat
         [VStr "/upload"; VInt 2001;
          VStr (string_of_list_byte (repeat x00 2000)); VInt 2001;
          VStr EmptyString]]) /\
  ~ slices_bounded.
Proof.
  split.
  - rewrite Handler_run. vm_compute. reflexivity.
  - intros H.
    remember (repeat x00 2001) as body eqn:Hbody.
    assert (Hlen : len body = 2001).
    { subst body. unfold len. now rewrite repeat_length. }
    destruct (H plainContext body body quietWorld)
      as (format & url & n & rq & m & last & Hrun & Hn & Hm).
    rewrite Handler_run in Hrun.
    assert (Hev : [previewEvent plainContext body body]
                  = [Logged logrus.InfoLevel format [url; VInt n; rq; VInt m; last]]).
    { apply (record_trace_inj quietWorld). congruence. }
    unfold previewEvent in Hev.
    destruct (_ || _); injection Hev as _ _ Hn' _ _ _; lia.
Qed.

(** C4, amended: whatever the sizes of the bodies, at most 2000 bytes of each
    are copied into the line; the lengths the line reports are those of the
    whole bodies. *)
Theorem previews_bounded
    (c : echo.Context) (reqBody resBody : list byte) (w : World) :
  exists format rq last,
    configEcho_Handler c reqBody resBody w
    = Some (tt, record w
        [Logged logrus.InfoLevel format
           [VStr (echo.URL_String (echo.Request_ c)); VInt (len reqBody);
            VStr rq; VInt (len resBody); last]]) /\
    (String.length rq <= 2000)%nat /\
    (last = VStr (responseContentType c) \/
     exists rp, last = VStr rp /\ (String.length rp <= 2000)%nat).
Proof.
  assert (Hb : forall b, (String.length (string_of_list_byte (preview b)) <= 2000)%nat).
  { intros b. rewrite string_of_list_byte_length.
    pose proof (preview_length b). lia. }
  rewrite Handler_run. unfold previewEvent.
  destruct (_ || _); do 3 eexists; (split; [reflexivity |]);
    (split; [apply Hb |]).
  - right. eexists; split; [reflexivity | apply Hb].
  - now left.
Qed.

(** ** Order and sorting facts *)

Module OrderFacts.

Lemma ascii_compare_refl (a : ascii) : Ascii.compare a a = Eq.
Proof. apply N.compare_refl. Qed.

Lemma ascii_compare_lt_trans (a b c : ascii) :
  Ascii.compare a b = Lt -> Ascii.compare b c = Lt -> Ascii.compare a c = Lt.
Proof.
  unfold Ascii.compare. rewrite !N.compare_lt_iff. apply N.lt_trans.
Qed.

Lemma compare_refl (s : string) : String.compare s s = Eq.
Proof.
  induction s as [|a s IH]; simpl; [reflexivity |].
  now rewrite ascii_compare_refl.
Qed.

Lemma compare_lt_trans (s t u : string) :
  String.compare s t = Lt -> String.compare t u = Lt -> String.compare s u = Lt.
Proof.
  revert t u. induction s as [|x s IH]; intros [|y t] [|z u]; simpl;
    try congruence.
  destruct (Ascii.compare x y) eqn:Hxy; try discriminate;
    destruct (Ascii.compare y z) eqn:Hyz; try discriminate; intros H1 H2.
  - apply Ascii.compare_eq_iff in Hxy, Hyz. subst.
    rewrite ascii_compare_refl. eauto.
  - apply Ascii.compare_eq_iff in Hxy. subst. now rewrite Hyz.
  - apply Ascii.compare_eq_iff in Hyz. subst. now rewrite Hxy.
  - now rewrite (ascii_compare_lt_trans x y z).
Qed.

Lemma ltb_lt (s t : string) : String.ltb s t = true <-> String.compare s t = Lt.
Proof.
  unfold String.ltb. destruct (String.compare s t); split; congruence.
Qed.

Lemma ltb_false_leb (s t : string) : String.ltb t s = false -> String.leb s t = true.
Proof.
  unfold String.ltb, String.leb. rewrite (String.compare_antisym s t).
  destruct (String.compare t s); simpl; congruence.
Qed.

Lemma ltb_strict_weak : StrictWeakOrder String.ltb.
Proof.
  split; [| split].
  - intros x. unfold String.ltb. now rewrite compare_refl.
  - intros x y z. rewrite !ltb_lt. apply compare_lt_trans.
  - intros x y z Hxy Hyz.
    destruct (String.ltb x z) eqn:Hxz; [| reflexivity].
    apply ltb_lt in Hxz.
    destruct (String.compare x y) eqn:Cxy.
    + apply String.compare_eq_iff in Cxy. subst y.
      apply ltb_lt in Hxz. congruence.
    + apply ltb_lt in Cxy. congruence.
    + assert (Cyx : String.compare y x = Lt).
      { rewrite String.compare_antisym, Cxy. reflexivity. }
      pose proof (compare_lt_trans _ _ _ Cyx Hxz) as Cyz.
      apply ltb_lt in Cyz. congruence.
Qed.

Lemma strict_weak_on {A B} (less : B -> B -> bool) (f : A -> B) :
  StrictWeakOrder less -> StrictWeakOrder (fun x y => less (f x) (f y)).
Proof.
  intros (Hirr & Htr & Hneg). split; [| split]; intros; eauto.
Qed.

Lemma strict_weak_asym {A} (less : A -> A -> bool) (x y : A) :
  StrictWeakOrder less -> less x y = true -> less y x = false.
Proof.
  intros (Hirr & Htr & _) H.
  destruct (less y x) eqn:E; [| reflexivity].
  rewrite <- (Hirr x). symmetry. eauto.
Qed.

End OrderFacts.

Module SortsFacts.
Import Sorts OrderFacts.

Section Insertion.
Context {A : Type} (less : A -> A -> bool).
Hypothesis Hless : StrictWeakOrder less.

Let ordered := StronglySorted (fun x y : A => less y x = false).

Lemma insert_behind_perm (x : A) (l : list A) :
  Permutation (x :: l) (insert_behind less x l).
Proof.
  induction l as [|y l IH]; simpl; [reflexivity |].
  destruct (less x y); [reflexivity |].
  rewrite perm_swap. now constructor.
Qed.

Lemma insert_front_perm (x : A) (l : list A) :
  Permutation (x :: l) (insert_front less x l).
Proof.
  induction l as [|y l IH]; simpl; [reflexivity |].
  destruct (less y x); [| reflexivity].
  rewrite perm_swap. now constructor.
Qed.

Lemma insert_behind_sorted (x : A) (l : list A) :
  ordered l -> ordered (insert_behind less x l).
Proof.
  unfold ordered. induction l as [|y l IH]; intros Hs; simpl.
  - repeat constructor.
  - apply StronglySorted_inv in Hs as [Hs Hy].
    destruct (less x y) eqn:Hxy.
    + constructor; [now constructor |].
      pose proof (strict_weak_asym less x y Hless Hxy) as Hyx.
      constructor; [exact Hyx |].
      destruct Hless as (_ & _ & Hneg).
      eapply Forall_impl; [exact Hy |]. intros z Hz. simpl in Hz. eauto.
    + constructor; [now apply IH |].
      eapply Permutation_Forall; [apply insert_behind_perm |].
      now constructor.
Qed.

Lemma insert_front_sorted (x : A) (l : list A) :
  ordered l -> ordered (insert_front less x l).
Proof.
  unfold ordered. induction l as [|y l IH]; intros Hs; simpl.
  - repeat constructor.
  - apply StronglySorted_inv in Hs as [Hs Hy].
    destruct (less y x) eqn:Hyx.
    + constructor; [now apply IH |].
      eapply Permutation_Forall; [apply insert_front_perm |].
      constructor; [| exact Hy].
      now apply strict_weak_asym.
    + constructor; [now constructor |].
      constructor; [exact Hyx |].
      destruct Hless as (_ & _ & Hneg).
      eapply Forall_impl; [exact Hy |]. intros z Hz. simpl in Hz. eauto.
Qed.

End Insertion.

Lemma reversing_contract : SortSliceContract reversing.
Proof.
  intros A less l Hless. unfold reversing.
  induction l as [|x l [IHp IHs]]; simpl.
  - split; constructor.
  - split.
    + rewrite <- insert_behind_perm. now constructor.
    + now apply insert_behind_sorted.
Qed.

Lemma keeping_contract : SortSliceContract keeping.
Proof.
  intros A less l Hless. unfold keeping.
  induction l as [|x l [IHp IHs]]; simpl.
  - split; constructor.
  - split.
    + rewrite <- insert_front_perm. now constructor.
    + now apply insert_front_sorted.
Qed.

End SortsFacts.

Lemma forEach_Infof {A} (format : string) (args : A -> list Value)
    (l : list A) (w : World) :
  forEach l (fun r => log.Infof format (args r)) w
  = Some (tt, record w (map (fun r => Logged logrus.InfoLevel format (args r)) l)).
Proof.
  revert w. induction l as [|x l IH]; intros w; simpl.
  - unfold ret. now rewrite record_nil.
  - unfold bind. rewrite Infof_run, IH, record_record. reflexivity.
Qed.

Lemma showEcho_run
    (sort : forall A : Type, (A -> A -> bool) -> list A -> list A)
    (e : echo.Echo) (w : World) :
  showEcho sort e w
  = Some (tt, record w (map lineEvent (sort _ byPath (entries e)))).
Proof. unfold showEcho. now rewrite forEach_Infof. Qed.

Lemma byPath_strict_weak : StrictWeakOrder byPath.
Proof.
  exact (OrderFacts.strict_weak_on String.ltb listing.p OrderFacts.ltb_strict_weak).
Qed.

Lemma lineEvent_inj (a b : listing.entry) : lineEvent a = lineEvent b -> a = b.
Proof.
  destruct a, b. unfold lineEvent; simpl. congruence.
Qed.

Lemma map_lineEvent_inj (l l' : list listing.entry) :
  map lineEvent l = map lineEvent l' -> l = l'.
Proof.
  revert l'. induction l as [|a l IH]; intros [|b l']; simpl; try congruence.
  intros H.
  assert (Hab : lineEvent a = lineEvent b)
    by exact (f_equal (fun x => hd (lineEvent a) x) H).
  assert (Hl : map lineEvent l = map lineEvent l')
    by exact (f_equal (@tl Event) H).
  apply lineEvent_inj in Hab. apply IH in Hl. congruence.
Qed.

Lemma listing_out
    (sort : forall A : Type, (A -> A -> bool) -> list A -> list A)
    (e : echo.Echo) (w : World) (out : list listing.entry) :
  showEcho sort e w = Some (tt, record w (map lineEvent out)) ->
  out = sort _ byPath (entries e).
Proof.
  rewrite showEcho_run. intros Hrun.
  apply map_lineEvent_inj. symmetry.
  apply (record_trace_inj w). congruence.
Qed.

(** C5, as stated, fails: Go's [sort.Slice] lists the thirteen routes with
    POST /orders ahead of GET /orders, which was registered first; and the
    contract of [sort.Slice] allows as much already for two routes. *)
Lemma listing_not_stable :
  showEcho GoSort.Slice thirteenRoutes quietWorld
  = Some (tt, record quietWorld
      [Logged logrus.InfoLevel "%s %s" [VStr "GET"; VStr "/health"];
       Logged logrus.InfoLevel "%s %s" [VStr "POST"; VStr "/orders"];
       Logged logrus.InfoLevel "%s %s" [VStr "GET"; VStr "/orders"];
       Logged logrus.InfoLevel "%s %s" [VStr "GET"; VStr "/products"];
       Logged logrus.InfoLevel "%s %s" [VStr "GET"; VStr "/reports"];
       Logged logrus.InfoLevel "%s %s" [VStr "POST"; VStr "/sessions"];
       Logged logrus.InfoLevel "%s %s" [VStr "GET"; VStr "/settings"];
       Logged logrus.InfoLevel "%s %s" [VStr "GET"; VStr "/stats"];
       Logged logrus.InfoLevel "%s %s" [VStr "GET"; VStr "/tags"];
       Logged logrus.InfoLevel "%s %s" [VStr "GET"; VStr "/teams"];
       Logged logrus.InfoLevel "%s %s" [VStr "POST"; VStr "/tokens"];
       Logged logrus.InfoLevel "%s %s" [VStr "GET"; VStr "/users"];
       Logged logrus.InfoLevel "%s %s" [VStr "POST"; VStr "/webhooks"]]) /\
  ~ listing_stable GoSort.Slice /\
  SortSliceContract Sorts.reversing /\
  showEcho Sorts.reversing samePathRoutes quietWorld
  = Some (tt, record quietWorld
      [Logged logrus.InfoLevel "%s %s" [VStr "POST"; VStr "/a"];
       Logged logrus.InfoLevel "%s %s" [VStr "GET"; VStr "/a"]]) /\
  ~ listing_stable Sorts.reversing.
Proof.
  split; [vm_compute; reflexivity |].
  split.
  { intros H.
    destruct (H thirteenRoutes quietWorld) as (out & Hrun & _ & Hties).
    apply listing_out in Hrun. specialize (Hties "/orders").
    rewrite Hrun in Hties. vm_compute in Hties. discriminate. }
  split; [exact SortsFacts.reversing_contract |].
  split; [reflexivity |].
  intros H.
  destruct (H samePathRoutes quietWorld) as (out & Hrun & _ & Hties).
  apply listing_out in Hrun. specialize (Hties "/a").
  rewrite Hrun in Hties. vm_compute in Hties. discriminate.
Qed.

(** C5, amended: whatever order the routes come in, the listing is a
    rearrangement of them that ascends by path; nothing fixes the order of
    routes with the same path.  Registering GET /b then POST /a lists POST /a,
    GET /b. *)
Theorem listing_sorted
    (sort : forall A : Type, (A -> A -> bool) -> list A -> list A)
    (Hsort : SortSliceContract sort) :
  (forall (e : echo.Echo) (w : World),
   exists out,
     showEcho sort e w = Some (tt, record w (map lineEvent out)) /\
     Permutation (entries e) out /\
     ascendingByPath out) /\
  (forall (mw : list echo.Middleware) (w : World),
     showEcho sort
       {| echo.middleware := mw;
          echo.routes := [ {| echo.Method := "GET"; echo.Path := "/b" |};
                           {| echo.Method := "POST"; echo.Path := "/a" |} ] |} w
     = Some (tt, record w
         [Logged logrus.InfoLevel "%s %s" [VStr "POST"; VStr "/a"];
          Logged logrus.InfoLevel "%s %s" [VStr "GET"; VStr "/b"]])).
Proof.
  split.
  - intros e w. exists (sort _ byPath (entries e)).
    destruct (Hsort _ byPath (entries e) byPath_strict_weak) as [Hp Hs].
    split; [apply showEcho_run | split; [exact Hp |]].
    clear Hp. unfold ascendingByPath.
    induction Hs as [|a l Hs IH Ha]; [constructor | constructor; [exact IH |]].
    eapply Forall_impl; [exact Ha |].
    intros b Hb. now apply OrderFacts.ltb_false_leb.
  - intros mw w. rewrite showEcho_run. unfold entries; simpl.
    destruct (Hsort _ byPath
                [ {| listing.m := "GET"; listing.p := "/b" |};
                  {| listing.m := "POST"; listing.p := "/a" |} ]
                byPath_strict_weak) as [Hp Hs].
    apply Permutation_length_2_inv in Hp as [Hp | Hp]; rewrite Hp in *.
    + apply StronglySorted_inv in Hs as [_ Hs].
      apply Forall_inv in Hs. discriminate.
    + reflexivity.
Qed.

(** Go's sort on the two routes of the scenario. *)
Example listing_two_routes_pdqsort :
  showEcho GoSort.Slice twoRoutes quietWorld
  = Some (tt, record quietWorld
      [Logged logrus.InfoLevel "%s %s" [VStr "POST"; VStr "/a"];
       Logged logrus.InfoLevel "%s %s" [VStr "GET"; VStr "/b"]]).
Proof. reflexivity. Qed.

Lemma listing_sorted_witness :
  SortSliceContract Sorts.keeping /\
  showEcho Sorts.keeping twoRoutes quietWorld
  = Some (tt, record quietWorld
      [Logged logrus.InfoLevel "%s %s" [VStr "POST"; VStr "/a"];
       Logged logrus.InfoLevel "%s %s" [VStr "GET"; VStr "/b"]]).
Proof.
  split; [exact SortsFacts.keeping_contract |].
  exact (proj2 (listing_sorted Sorts.keeping SortsFacts.keeping_contract)
               [] quietWorld).
Defined.

Section LoggerRuns.
Variables (l : positive) (lg : logrus.Logger) (w : World).
Hypothesis Hl : made w !! l = Some lg.

Lemma SetOutput_made (out : logrus.Writer) :
  LoggerOps.SetOutput (MadeRef l) out w
  = Some (tt, set_made w (<[l := {| logrus.Out := out;
                                    logrus.Formatter_ := logrus.Formatter_ lg;
                                    logrus.Level_ := logrus.Level_ lg |}]> (made w))).
Proof. unfold LoggerOps.SetOutput, bind, load. now rewrite Hl. Qed.

Lemma SetLevel_made (level : logrus.Level) :
  LoggerOps.SetLevel (MadeRef l) level w
  = Some (tt, set_made w (<[l := {| logrus.Out := logrus.Out lg;
                                    logrus.Formatter_ := logrus.Formatter_ lg;
                                    logrus.Level_ := level |}]> (made w))).
Proof. unfold LoggerOps.SetLevel, bind, load. now rewrite Hl. Qed.

Lemma SetFormatter_made (f : logrus.Formatter) :
  LoggerOps.SetFormatter (MadeRef l) f w
  = Some (tt, set_made w (<[l := {| logrus.Out := logrus.Out lg;
                                    logrus.Formatter_ := f;
                                    logrus.Level_ := logrus.Level_ lg |}]> (made w))).
Proof. unfold LoggerOps.SetFormatter, bind, load. now rewrite Hl. Qed.

End LoggerRuns.

(** The three setters in a row, on a logger that was made. *)
Lemma configure_made (l : positive) (lg : logrus.Logger) (w : World)
    (out : logrus.Writer) (level : logrus.Level) (f : logrus.Formatter) :
  made w !! l = Some lg ->
  (LoggerOps.SetOutput (MadeRef l) out ;;
   LoggerOps.SetLevel (MadeRef l) level ;;
   LoggerOps.SetFormatter (MadeRef l) f) w
  = Some (tt, set_made w (<[l := {| logrus.Out := out;
                                    logrus.Formatter_ := f;
                                    logrus.Level_ := level |}]> (made w))).
Proof.
  intros Hl. unfold bind.
  rewrite (SetOutput_made l lg w Hl).
  erewrite SetLevel_made by (simpl; apply lookup_insert_eq).
  erewrite SetFormatter_made by (simpl; apply lookup_insert_eq).
  simpl. now rewrite !insert_insert_eq.
Qed.

Section Construction.
Variable ParseLevel : string -> logrus.Level * option error.
Variables (ctx : context.Context) (lc : LogConfig) (w : World).

Let l : positive := fresh (dom (made w)).

Lemma initAccessLog_ok (e : echo.Echo) (level : logrus.Level) :
  ParseLevel (Level lc) = (level, None) ->
  initAccessLog ParseLevel {| Echo := e; Logger := None |} ctx lc w
  = Some (({| Echo := e; Logger := Some (MadeRef l) |}, None),
          set_made w (<[l := {| logrus.Out := chosenWriter ctx lc;
                                logrus.Formatter_ :=
                                  logrus.Text {| logrus.QuoteEmptyFields := true |};
                                logrus.Level_ := level |}]> (made w))).
Proof.
  intros HP. unfold initAccessLog, bind at 1 2. cbn [Logger log.New ret].
  fold l. rewrite HP. cbn [Logger].
  set (w1 := set_made w (<[l := _]> (made w))).
  assert (Hl : made w1 !! l = Some newLogger) by apply lookup_insert_eq.
  assert (Hgo : forall out,
    (LoggerOps.SetOutput (MadeRef l) out ;;
     LoggerOps.SetLevel (MadeRef l) level ;;
     LoggerOps.SetFormatter (MadeRef l)
       (logrus.Text {| logrus.QuoteEmptyFields := true |}) ;;
     ret ({| Echo := e; Logger := Some (MadeRef l) |}, @None error)) w1
    = Some (({| Echo := e; Logger := Some (MadeRef l) |}, None),
            set_made w (<[l := {| logrus.Out := out;
                                  logrus.Formatter_ :=
                                    logrus.Text {| logrus.QuoteEmptyFields := true |};
                                  logrus.Level_ := level |}]> (made w)))).
  { intros out.
    pose proof (configure_made l newLogger w1 out level
                  (logrus.Text {| logrus.QuoteEmptyFields := true |}) Hl) as Hc.
    unfold bind in *.
    destruct (LoggerOps.SetOutput (MadeRef l) out w1) as [[[] w2] |];
      [| discriminate].
    destruct (LoggerOps.SetLevel (MadeRef l) level w2) as [[[] w3] |];
      [| discriminate].
    rewrite Hc. unfold ret, w1. cbn [made set_made].
    now rewrite insert_insert_eq. }
  unfold chosenWriter.
  destruct (String.eqb (Output lc) "stdout"); [apply Hgo |].
  destruct (String.eqb (Output lc) "stderr"); [apply Hgo |].
  destruct (String.eqb (Output lc) EmptyString); apply Hgo.
Qed.

Lemma initAccessLog_err (e : echo.Echo) (level : logrus.Level) (er : error) :
  ParseLevel (Level lc) = (level, Some er) ->
  initAccessLog ParseLevel {| Echo := e; Logger := None |} ctx lc w
  = Some (({| Echo := e; Logger := Some (MadeRef l) |}, Some er),
          set_made w (<[l := newLogger]> (made w))).
Proof.
  intros HP. unfold initAccessLog, bind. cbn [Logger log.New ret].
  fold l. now rewrite HP.
Qed.

Lemma New_ok (level : logrus.Level) :
  ParseLevel (Level lc) = (level, None) ->
  New ParseLevel ctx lc w
  = Some ((Some {| Echo :=
                     {| echo.middleware :=
                          [echo.BodyDumpWithConfig echo.dumpBodies;
                           echo.LoggerWithConfig (formatInForce w)
                                                 (logrus.Out (std w));
                           echo.CORSWithConfig allowAll];
                        echo.routes := [] |};
                   Logger := Some (MadeRef l) |}, None),
          set_made w (<[l := {| logrus.Out := chosenWriter ctx lc;
                                logrus.Formatter_ :=
                                  logrus.Text {| logrus.QuoteEmptyFields := true |};
                                logrus.Level_ := level |}]> (made w))).
Proof.
  intros HP. unfold New, bind.
  rewrite (initAccessLog_ok echo.New level HP). reflexivity.
Qed.

Lemma New_err (level : logrus.Level) (er : error) :
  ParseLevel (Level lc) = (level, Some er) ->
  New ParseLevel ctx lc w
  = Some ((None, Some er), set_made w (<[l := newLogger]> (made w))).
Proof.
  intros HP. unfold New, bind.
  rewrite (initAccessLog_err echo.New level er HP). reflexivity.
Qed.

End Construction.

(** Were the [Logger] field to hold the standard logger already, the
    configuration would land on the standard logger. *)
Lemma initAccessLog_on_standard
    (ParseLevel : string -> logrus.Level * option error)
    (ctx : context.Context) (lc : LogConfig) (w : World)
    (e : echo.Echo) (level : logrus.Level) :
  ParseLevel (Level lc) = (level, None) ->
  initAccessLog ParseLevel {| Echo := e; Logger := Some StandardRef |} ctx lc w
  = Some (({| Echo := e; Logger := Some StandardRef |}, None),
          set_std w {| logrus.Out := chosenWriter ctx lc;
                       logrus.Formatter_ :=
                         logrus.Text {| logrus.QuoteEmptyFields := true |};
                       logrus.Level_ := level |}).
Proof.
  intros HP. unfold initAccessLog, bind at 1. cbn [Logger ret]. rewrite HP.
  unfold chosenWriter.
  destruct (String.eqb (Output lc) "stdout"); [reflexivity |].
  destruct (String.eqb (Output lc) "stderr"); [reflexivity |].
  destruct (String.eqb (Output lc) EmptyString); reflexivity.
Qed.

(** C6: [New] returns an error and no gateway exactly when the level string
    does not parse, and the error is the one [ParseLevel] gave; otherwise it
    returns, without error, a gateway whose logger carries the chosen writer,
    the parsed level and the quoting formatter and whose server has all three
    middlewares.  [New] never panics.  With the level "bogus" the result is
    an error and no gateway. *)
Theorem New_fails_only_on_level :
  (forall (ParseLevel : string -> logrus.Level * option error)
          (ctx : context.Context) (lc : LogConfig) (w : World),
     (exists level er w',
        ParseLevel (Level lc) = (level, Some er) /\
        New ParseLevel ctx lc w = Some ((None, Some er), w'))
     \/
     (exists level w',
        ParseLevel (Level lc) = (level, None) /\
        New ParseLevel ctx lc w = Some ((Some (builtGateway w), None), w') /\
        load (MadeRef (fresh (dom (made w)))) w'
        = Some ({| logrus.Out := chosenWriter ctx lc;
                   logrus.Formatter_ :=
                     logrus.Text {| logrus.QuoteEmptyFields := true |};
                   logrus.Level_ := level |}, w'))) /\
  (forall (ctx : context.Context) (output : string) (size backNum ageDays : Z)
          (w : World),
     exists w',
       New LevelNames.ParseLevel ctx
         {| Output := output; Level := "bogus"; Size := size;
            BackNum := backNum; AgeDays := ageDays |} w
       = Some ((None,
                Some ("not a valid logrus Level: " ++ LevelNames.quote "bogus")),
               w')).
Proof.
  split.
  - intros ParseLevel ctx lc w.
    destruct (ParseLevel (Level lc)) as [level [er |]] eqn:HP.
    + left. exists level, er. eexists. split; [reflexivity |].
      exact (New_err ParseLevel ctx lc w level er HP).
    + right. exists level. eexists. split; [reflexivity |].
      split; [exact (New_ok ParseLevel ctx lc w level HP) |].
      unfold load. cbn [made set_made]. now rewrite lookup_insert_eq.
  - intros ctx output size backNum ageDays w. eexists.
    apply (New_err LevelNames.ParseLevel ctx
             {| Output := output; Level := "bogus"; Size := size;
                BackNum := backNum; AgeDays := ageDays |} w logrus.PanicLevel).
    reflexivity.
Qed.

(** C7: when the level parses, the logger of the gateway writes to stdout
    for the output "stdout", to stderr for "stderr", to stdout for the empty
    string, and for any other string to a rotating file of that name with the
    size limit, backup count and maximal age of the configuration, with
    compression and local time switched on. *)
Theorem sink_selection
    (ParseLevel : string -> logrus.Level * option error)
    (ctx : context.Context) (lc : LogConfig) (level : logrus.Level) (w : World) :
  ParseLevel (Level lc) = (level, None) ->
  exists agw r lg w',
    New ParseLevel ctx lc w = Some ((Some agw, None), w') /\
    Logger agw = Some r /\
    load r w' = Some (lg, w') /\
    (Output lc = "stdout" -> logrus.Out lg = logrus.os_Stdout) /\
    (Output lc = "stderr" -> logrus.Out lg = logrus.os_Stderr) /\
    (Output lc = EmptyString -> logrus.Out lg = logrus.os_Stdout) /\
    (Output lc <> "stdout" -> Output lc <> "stderr" ->
     Output lc <> EmptyString ->
     logrus.Out lg
     = logrus.Rotating
         {| lumberjackx.Ctx := ctx;
            lumberjackx.Filename := Output lc;
            lumberjackx.MaxSize := Size lc;
            lumberjackx.MaxBackups := BackNum lc;
            lumberjackx.MaxAge := AgeDays lc;
            lumberjackx.Compress := true;
            lumberjackx.LocalTime := true |}).
Proof.
  intros HP. eexists. exists (MadeRef (fresh (dom (made w)))). do 2 eexists.
  split; [exact (New_ok ParseLevel ctx lc w level HP) |].
  split; [reflexivity |].
  split; [unfold load; cbn [made set_made]; now rewrite lookup_insert_eq |].
  cbn [logrus.Out]. unfold chosenWriter.
  repeat split.
  - intros ->. reflexivity.
  - intros ->. reflexivity.
  - intros ->. reflexivity.
  - intros H1 H2 H3.
    apply String.eqb_neq in H1, H2, H3. now rewrite H1, H2, H3.
Qed.

Lemma sink_selection_witness :
  LevelNames.ParseLevel (Level fileConfig) = (logrus.InfoLevel, None) /\
  exists agw r lg w',
    New LevelNames.ParseLevel context.Background fileConfig quietWorld
    = Some ((Some agw, None), w') /\
    Logger agw = Some r /\
    load r w' = Some (lg, w') /\
    logrus.Out lg
    = logrus.Rotating
        {| lumberjackx.Ctx := context.Background;
           lumberjackx.Filename := "/var/log/gateway.log";
           lumberjackx.MaxSize := 100;
           lumberjackx.MaxBackups := 5;
           lumberjackx.MaxAge := 30;
           lumberjackx.Compress := true;
           lumberjackx.LocalTime := true |}.
Proof.
  split; [reflexivity |].
  destruct (sink_selection LevelNames.ParseLevel context.Background fileConfig
              logrus.InfoLevel quietWorld eq_refl)
    as (agw & r & lg & w' & Hnew & Hr & Hload & _ & _ & _ & Hfile).
  exists agw, r, lg, w'. repeat split; try assumption.
  apply Hfile; discriminate.
Defined.

(** ** Start and stop *)

Lemma startEcho_run (e : echo.Echo) (addr : string) (started : Started)
    (w : World) :
  startEcho e addr started w
  = Some (Some (Started_error started), record w
      [EchoStart e addr;
       Logged logrus.ErrorLevel "Failed to bind address: %s, err[%v]"
         [VStr addr; VErr (Started_error started)]]).
Proof.
  unfold startEcho, echo_Start, bind. rewrite emit_run. cbn [ret].
  rewrite Errorf_run, record_record. reflexivity.
Qed.

Lemma shutdownEcho_run (e : echo.Echo) (stopped : option error) (w : World) :
  shutdownEcho e stopped w
  = Some (tt, record w
      ([EchoShutdown e (context.WithTimeout context.Background 5000000000)]
       ++ match stopped with
          | Some _ => [Logged logrus.ErrorLevel "Failed to close Echo: %v" [VEcho e]]
          | None => []
          end
       ++ [Logged logrus.InfoLevel "Close service: %v" [VEcho e]])).
Proof.
  unfold shutdownEcho, echo_Shutdown, bind. rewrite emit_run. cbn [ret].
  destruct stopped as [er |].
  - rewrite Errorf_run, Infof_run, !record_record. reflexivity.
  - cbn [ret]. rewrite Infof_run, record_record. reflexivity.
Qed.

(** C8, as stated, fails: [Stop] on a gateway that was never started asks
    the server to shut down and logs, and a second [Stop] does so again. *)
Lemma Stop_not_noop :
  neverStarted quietWorld /\
  Stop restingGateway None quietWorld = Some (tt, record quietWorld closing) /\
  Stop restingGateway None (record quietWorld closing)
  = Some (tt, record quietWorld (closing ++ closing)) /\
  ~ Stop_is_noop.
Proof.
  assert (Hq : neverStarted quietWorld) by (intros e addr []).
  split; [exact Hq |].
  split; [reflexivity |].
  split; [reflexivity |].
  intros H.
  destruct (H restingGateway None None quietWorld quietWorld Hq) as [Hstop _].
  discriminate.
Qed.

(** [shutdownEcho] with the clock is [shutdownEcho] on the answer the
    server gives. *)
Lemma shutdownEcho_clocked_run (e : echo.Echo) (drain : option Z) (w : World) :
  shutdownEcho_clocked e drain w
  = match Shutdown_answer
            (context.WithTimeout context.Background (5 * time.Second)) drain with
    | None => Blocked
    | Some (elapsed, answer) =>
        match shutdownEcho e answer w with
        | Some (_, w') => Returned w' elapsed
        | None => Panicked
        end
    end.
Proof. reflexivity. Qed.

(** C8, amended: [Stop] asks the server to shut down under a deadline of
    five seconds and is back after at most five seconds, whatever the
    connections need, even if they never go idle: it never blocks for good
    and never panics.  If the connections are idle in time the stop is
    clean and only the closing line is logged; otherwise the call is given
    up at five seconds and [Stop] goes on, logging a failure line and then
    the closing line.  It does this on every call, whether or not the
    server was started or stopped before, so it is not a no-op; it returns
    no error. *)
Theorem Stop_bounded_and_logged
    (agw : ApiGateway) (drain : option Z) (w : World) :
  exists elapsed answer w',
    Stop_clocked agw drain w = Returned w' elapsed /\
    Stop agw answer w = Some (tt, w') /\
    elapsed <= 5 * time.Second /\
    match drain with
    | Some n =>
        if n <=? 5 * time.Second
        then answer = None /\ elapsed = n
        else answer = Some DeadlineExceeded /\ elapsed = 5 * time.Second
    | None => answer = Some DeadlineExceeded /\ elapsed = 5 * time.Second
    end /\
    trace w'
    = (trace w
       ++ [EchoShutdown (Echo agw)
             (context.WithTimeout context.Background (5 * time.Second))]
       ++ match answer with
          | Some _ => [Logged logrus.ErrorLevel "Failed to close Echo: %v"
                         [VEcho (Echo agw)]]
          | None => []
          end
       ++ [Logged logrus.InfoLevel "Close service: %v" [VEcho (Echo agw)]])%list /\
    trace w' <> trace w.
Proof.
  assert (Hgrow : forall (l evs : list Event), evs <> [] -> (l ++ evs)%list <> l).
  { intros l evs Hne Heq. apply Hne.
    apply (app_inv_head l). now rewrite app_nil_r. }
  unfold Stop_clocked, Stop. rewrite shutdownEcho_clocked_run.
  assert (Hd : context_Deadline
                 (context.WithTimeout context.Background (5 * time.Second))
               = Some (5 * time.Second)) by reflexivity.
  unfold Shutdown_answer. rewrite Hd.
  destruct drain as [n |].
  - destruct (n <=? 5 * time.Second) eqn:Hn.
    + exists n, None. eexists. rewrite shutdownEcho_run.
      split; [reflexivity |]. split; [reflexivity |].
      split; [now apply Z.leb_le |]. split; [now split |].
      split; [reflexivity |]. apply Hgrow. discriminate.
    + exists (5 * time.Second), (Some DeadlineExceeded). eexists.
      rewrite shutdownEcho_run.
      split; [reflexivity |]. split; [reflexivity |].
      split; [lia |]. split; [now split |].
      split; [reflexivity |]. apply Hgrow. discriminate.
  - exists (5 * time.Second), (Some DeadlineExceeded). eexists.
    rewrite shutdownEcho_run.
    split; [reflexivity |]. split; [reflexivity |].
    split; [lia |]. split; [now split |].
    split; [reflexivity |]. apply Hgrow. discriminate.
Qed.

(** C9, on the code: [Run] starts the server on the address [ip:port], and
    whenever the call comes back it comes back with an error, logged as a
    failure to bind and returned to the caller.  That holds when the address
    could not be bound, and just as well when the address was bound and the
    server served until [Stop] closed it.  The line with the bound address
    is never logged. *)
Theorem Run_reports_every_end_as_bind_failure
    (sort : forall A : Type, (A -> A -> bool) -> list A -> list A)
    (agw : ApiGateway) (ip port : string) (started : Started) (w : World) :
  let addr := ip ++ ":" ++ port in
  let err := Started_error started in
  Run sort agw ip port started w
  = Some (Some err, record w
      (map lineEvent (sort _ byPath (entries (Echo agw)))
       ++ [EchoStart (Echo agw) addr;
           Logged logrus.ErrorLevel "Failed to bind address: %s, err[%v]"
             [VStr addr; VErr err]])) /\
  fmt.message "Failed to bind address: %s, err[%v]" [VStr addr; VErr err]
  = Some ("Failed to bind address: " ++ addr ++ ", err[" ++ err ++ "]") /\
  (forall r w',
     Run sort agw ip port started w = Some (r, w') ->
     r <> None /\
     forall args,
       ~ In (Logged logrus.InfoLevel "Start service listen on: %s" args)
            (skipn (length (trace w)) (trace w'))) /\
  Run sort agw "127.0.0.1" "8080" (ServedUntil ErrServerClosed) w
  = Some (Some "http: Server closed", record w
      (map lineEvent (sort _ byPath (entries (Echo agw)))
       ++ [EchoStart (Echo agw) "127.0.0.1:8080";
           Logged logrus.ErrorLevel "Failed to bind address: %s, err[%v]"
             [VStr "127.0.0.1:8080"; VErr "http: Server closed"]])).
Proof.
  assert (Hrun : forall ip' port' started',
    Run sort agw ip' port' started' w
    = Some (Some (Started_error started'), record w
        (map lineEvent (sort _ byPath (entries (Echo agw)))
         ++ [EchoStart (Echo agw) (ip' ++ ":" ++ port');
             Logged logrus.ErrorLevel "Failed to bind address: %s, err[%v]"
               [VStr (ip' ++ ":" ++ port'); VErr (Started_error started')]]))).
  { intros ip' port' started'. unfold Run, bind. rewrite showEcho_run.
    change (fmt.Sprintf "%s:%s" [ip'; port'])
      with (ip' ++ String ":" (port' ++ EmptyString)).
    rewrite GoStringsFacts.append_empty_r.
    rewrite startEcho_run, record_record. reflexivity. }
  intros addr err. split; [apply Hrun |]. split; [reflexivity |].
  split; [| apply Hrun].
  intros r w' H. rewrite Hrun in H. injection H as <- <-.
  split; [discriminate |]. intros args Hin.
  cbn [record trace] in Hin.
  rewrite skipn_app, skipn_all, Nat.sub_diag in Hin. cbn [skipn app] in Hin.
  apply in_app_or in Hin as [Hin | Hin].
  - apply in_map_iff in Hin as (x & Hx & _). discriminate.
  - destruct Hin as [Hin | [Hin | []]]; discriminate.
Qed.

(** ** Which logger the request lines use *)

Lemma fresh_unused (m : gmap positive logrus.Logger) : m !! fresh (dom m) = None.
Proof. apply not_elem_of_dom, is_fresh. Qed.

(** With [log.New] read as making a logger of its own, the writer, level
    and formatter of the configuration land on that logger and the standard
    logger keeps its own; with the standard logger in the [Logger] field
    they land on the standard logger, see [initAccessLog_on_standard].
    Which of the two [log.New] does is not to be seen in this package. *)
Lemma configuration_spares_standard_logger
    (ParseLevel : string -> logrus.Level * option error)
    (ctx : context.Context) (lc : LogConfig) (w : World) :
  exists r w' lg,
    New ParseLevel ctx lc w = Some (r, w') /\
    made w' = <[fresh (dom (made w)) := lg]> (made w) /\
    made w !! fresh (dom (made w)) = None /\
    match fst r with
    | Some agw =>
        Logger agw = Some (MadeRef (fresh (dom (made w)))) /\
        Logger agw <> Some log.StandardLogger /\
        lg = {| logrus.Out := chosenWriter ctx lc;
                logrus.Formatter_ :=
                  logrus.Text {| logrus.QuoteEmptyFields := true |};
                logrus.Level_ := fst (ParseLevel (Level lc)) |} /\
        echo.middleware (Echo agw)
        = [echo.BodyDumpWithConfig echo.dumpBodies;
           echo.LoggerWithConfig (formatInForce w) (logrus.Out (std w));
           echo.CORSWithConfig allowAll]
    | None => True
    end /\
    std w' = std w /\
    (forall ev, log.delivery w' ev = log.delivery w ev) /\
    (forall (c : echo.Context) (reqBody resBody : list byte),
     exists format args,
       configEcho_Handler c reqBody resBody w'
       = Some (tt, record w' [Logged logrus.InfoLevel format args]) /\
       log.delivery (record w' [Logged logrus.InfoLevel format args])
                    (Logged logrus.InfoLevel format args)
       = if logrus.IsLevelEnabled (std w) logrus.InfoLevel
         then Some (logrus.Out (std w), logrus.Formatter_ (std w))
         else None).
Proof.
  assert (Hhandler : forall w' : World, std w' = std w ->
    forall (c : echo.Context) (reqBody resBody : list byte),
    exists format args,
      configEcho_Handler c reqBody resBody w'
      = Some (tt, record w' [Logged logrus.InfoLevel format args]) /\
      log.delivery (record w' [Logged logrus.InfoLevel format args])
                   (Logged logrus.InfoLevel format args)
      = if logrus.IsLevelEnabled (std w) logrus.InfoLevel
        then Some (logrus.Out (std w), logrus.Formatter_ (std w))
        else None).
  { intros w' Hstd c reqBody resBody. rewrite Handler_run.
    unfold previewEvent.
    destruct (_ || _); do 2 eexists; (split; [reflexivity |]);
      unfold log.delivery; cbn [std record]; now rewrite Hstd. }
  destruct (ParseLevel (Level lc)) as [level [er |]] eqn:HP.
  - do 3 eexists.
    split; [exact (New_err ParseLevel ctx lc w level er HP) |].
    split; [reflexivity |].
    split; [apply fresh_unused |].
    split; [exact I |].
    split; [reflexivity |].
    split; [reflexivity |].
    now apply Hhandler.
  - do 3 eexists.
    split; [exact (New_ok ParseLevel ctx lc w level HP) |].
    split; [reflexivity |].
    split; [apply fresh_unused |].
    split; [repeat split; discriminate |].
    split; [reflexivity |].
    split; [reflexivity |].
    now apply Hhandler.
Qed.

(** * Further properties of the code *)

(** ** The classifier *)

Module ClassifierFacts.
Import GoStrings.

Lemma append_assoc (a b c : string) : ((a ++ b) ++ c = a ++ (b ++ c))%string.
Proof.
  induction a as [|x a IH]; [reflexivity |].
  change (String x ((a ++ b) ++ c) = String x (a ++ (b ++ c)))%string.
  now rewrite IH.
Qed.

Lemma HasPrefix_append (s p t : string) :
  HasPrefix s p = true -> HasPrefix (s ++ t) p = true.
Proof.
  rewrite !GoStringsFacts.HasPrefix_spec. intros [u ->].
  exists (u ++ t)%string. apply append_assoc.
Qed.

Lemma Contains_append (s sub t : string) :
  Contains s sub = true -> Contains (s ++ t) sub = true.
Proof.
  rewrite !GoStringsFacts.Contains_spec. intros (a & b & ->).
  exists a, (b ++ t)%string. now rewrite !append_assoc.
Qed.

Lemma upper_is_no_token_head (c : ascii) :
  Ascii.eqb (UpperCase.upper c) "t" = false /\
  Ascii.eqb (UpperCase.upper c) "j" = false /\
  Ascii.eqb (UpperCase.upper c) "x" = false /\
  Ascii.eqb (UpperCase.upper c) "h" = false.
Proof.
  destruct c as [[] [] [] [] [] [] [] []]; vm_compute; repeat split.
Qed.

Lemma HasPrefix_upper (s : string) (c : ascii) (p : string) :
  Ascii.eqb c "t" = true \/ Ascii.eqb c "j" = true \/
  Ascii.eqb c "x" = true \/ Ascii.eqb c "h" = true ->
  HasPrefix (UpperCase.ToUpper s) (String c p) = false.
Proof.
  intros Hc. destruct s as [|x s]; [reflexivity |]. cbn [UpperCase.ToUpper HasPrefix].
  destruct (upper_is_no_token_head x) as (Ht & Hj & Hx & Hh).
  destruct (Ascii.eqb (UpperCase.upper x) c) eqn:E; [| reflexivity].
  apply Ascii.eqb_eq in E. rewrite E in *.
  destruct Hc as [H | [H | [H | H]]]; congruence.
Qed.

Lemma Contains_upper (s : string) (c : ascii) (p : string) :
  Ascii.eqb c "t" = true \/ Ascii.eqb c "j" = true \/
  Ascii.eqb c "x" = true \/ Ascii.eqb c "h" = true ->
  Contains (UpperCase.ToUpper s) (String c p) = false.
Proof.
  intros Hc. induction s as [|x s IH].
  - reflexivity.
  - pose proof (HasPrefix_upper (String x s) c p Hc) as H.
    cbn [UpperCase.ToUpper] in H. cbn [UpperCase.ToUpper Contains].
    now rewrite H, IH.
Qed.

End ClassifierFacts.

(** X1: a printable content type stays printable whatever is appended to it,
    parameters such as a charset included. *)
Theorem printable_with_suffix (s t : string) :
  isPrintableTextContent s = true ->
  isPrintableTextContent (s ++ t) = true.
Proof.
  unfold isPrintableTextContent. intros H.
  destruct (GoStrings.HasPrefix s "text/") eqn:E1.
  { now rewrite (ClassifierFacts.HasPrefix_append _ _ t E1). }
  destruct (GoStrings.Contains s "json") eqn:E2.
  { rewrite (ClassifierFacts.Contains_append _ _ t E2).
    now rewrite orb_true_r. }
  destruct (GoStrings.Contains s "xml") eqn:E3.
  { rewrite (ClassifierFacts.Contains_append _ _ t E3).
    now rewrite !orb_true_r. }
  destruct (GoStrings.Contains s "html") eqn:E4.
  { rewrite (ClassifierFacts.Contains_append _ _ t E4).
    now rewrite !orb_true_r. }
  discriminate.
Qed.

Lemma printable_with_suffix_witness :
  isPrintableTextContent "application/json" = true /\
  isPrintableTextContent ("application/json" ++ "; charset=utf-8") = true.
Proof.
  split; [reflexivity |].
  apply (printable_with_suffix "application/json" "; charset=utf-8").
  reflexivity.
Defined.

(** X2: no content type spelled in upper case is printable: the tokens are
    matched in lower case only. *)
Theorem upper_case_is_opaque (s : string) :
  isPrintableTextContent (UpperCase.ToUpper s) = false.
Proof.
  unfold isPrintableTextContent.
  rewrite ClassifierFacts.HasPrefix_upper by (left; reflexivity).
  rewrite !ClassifierFacts.Contains_upper; [reflexivity | | |].
  - right; right; right; reflexivity.
  - right; right; left; reflexivity.
  - right; left; reflexivity.
Qed.

(** ** The handler at the edges *)

Lemma preview_whole_iff (b : list byte) : preview b = b <-> len b <= 2000.
Proof.
  split.
  - intros H. pose proof (preview_length b) as Hl. rewrite H in Hl.
    fold (len b) in Hl. lia.
  - intros H. unfold preview. rewrite Z.min_l by exact H.
    unfold len. rewrite Nat2Z.id. apply firstn_all.
Qed.

Lemma Header_Get_missing (h : gmap string (list string)) (key : string) :
  h !! key = None \/ h !! key = Some [] -> echo.Header_Get h key = EmptyString.
Proof. unfold echo.Header_Get. now intros [-> | ->]. Qed.

(** X3: a response without a content type, or with an empty list of values
    for it, and with a non-empty body is logged with the placeholder, which
    then names nothing. *)
Theorem missing_content_type_is_opaque
    (c : echo.Context) (reqBody resBody : list byte) (w : World) :
  echo.Response_Header (echo.Response_ c) !! echo.HeaderContentType = None \/
  echo.Response_Header (echo.Response_ c) !! echo.HeaderContentType = Some [] ->
  resBody <> [] ->
  let url := echo.URL_String (echo.Request_ c) in
  let rq := string_of_list_byte (preview reqBody) in
  configEcho_Handler c reqBody resBody w
  = Some (tt, record w
      [Logged logrus.InfoLevel opaqueFormat
         [VStr url; VInt (len reqBody); VStr rq; VInt (len resBody);
          VStr EmptyString]]) /\
  fmt.message opaqueFormat
    [VStr url; VInt (len reqBody); VStr rq; VInt (len resBody); VStr EmptyString]
  = Some (url ++ ", reqBody[" ++ GoStrings.Itoa (len reqBody) ++ "]:{" ++ rq
          ++ "}, resBody[" ++ GoStrings.Itoa (len resBody)
          ++ "]:[Non-printable ContentType:]").
Proof.
  intros Hh Hres url rq. split; [| reflexivity].
  rewrite Handler_run. unfold previewEvent, responseContentType.
  rewrite (Header_Get_missing _ _ Hh).
  assert (Hlen : (len resBody =? 0) = false).
  { apply Z.eqb_neq. unfold len. destruct resBody; [congruence | simpl; lia]. }
  rewrite Hlen. reflexivity.
Qed.

Lemma missing_content_type_is_opaque_witness :
  configEcho_Handler plainContext [] [x00; x01; x02] quietWorld
  = Some (tt, record quietWorld
      [Logged logrus.InfoLevel opaqueFormat
         [VStr "/upload"; VInt 0; VStr EmptyString; VInt 3; VStr EmptyString]]).
Proof.
  apply (missing_content_type_is_opaque plainContext [] [x00; x01; x02] quietWorld).
  - left. reflexivity.
  - discriminate.
Defined.

(** X4: of the response headers the handler reads the first content-type
    value and nothing else: further values of the content type and all other
    response headers leave the line as it is. *)
Theorem first_content_type_value_decides
    (c : echo.Context) (v : string) (rest : list string)
    (reqBody resBody : list byte) (w : World) :
  echo.Response_Header (echo.Response_ c) !! echo.HeaderContentType
  = Some (v :: rest) ->
  configEcho_Handler c reqBody resBody w
  = configEcho_Handler
      (withResponseHeader c {[ echo.HeaderContentType := [v] ]})
      reqBody resBody w.
Proof.
  intros Hh. rewrite !Handler_run. do 3 f_equal.
  unfold previewEvent, responseContentType, echo.Header_Get.
  cbn [withResponseHeader echo.Response_ echo.Response_Header echo.Request_].
  now rewrite Hh, lookup_singleton_eq.
Qed.

Lemma first_content_type_value_decides_witness :
  configEcho_Handler mixedContext [] [x00; x01; x02] quietWorld
  = configEcho_Handler
      (withResponseHeader mixedContext
         {[ echo.HeaderContentType := ["application/octet-stream"] ]})
      [] [x00; x01; x02] quietWorld.
Proof.
  apply (first_content_type_value_decides mixedContext
           "application/octet-stream" ["text/plain"]).
  reflexivity.
Defined.

(** X5: the request body is logged whole exactly when it has at most 2000
    bytes: only then do the bytes in the line give back the body. *)
Theorem request_logged_whole_iff_short
    (c : echo.Context) (reqBody resBody : list byte) (w : World) :
  exists format rq last,
    configEcho_Handler c reqBody resBody w
    = Some (tt, record w
        [Logged logrus.InfoLevel format
           [VStr (echo.URL_String (echo.Request_ c)); VInt (len reqBody);
            VStr rq; VInt (len resBody); last]]) /\
    (list_byte_of_string rq = reqBody <-> len reqBody <= 2000).
Proof.
  rewrite Handler_run. unfold previewEvent.
  destruct (_ || _); do 3 eexists; (split; [reflexivity |]);
    rewrite list_byte_of_string_of_list_byte; apply preview_whole_iff.
Qed.

(** ** Configuration, once and again *)

(** X6: [configEcho] keeps the routes and the middlewares already in place
    and puts its three behind them, body dump before access log before CORS;
    it changes nothing else and writes no line.  It is not idempotent: a
    second call installs the three once more. *)
Theorem configEcho_appends (e : echo.Echo) (w : World) :
  exists e1 e2,
    configEcho e w = Some (e1, w) /\
    configEcho e1 w = Some (e2, w) /\
    echo.routes e1 = echo.routes e /\
    echo.routes e2 = echo.routes e /\
    echo.middleware e1 = (echo.middleware e ++ installed w)%list /\
    echo.middleware e2 = (echo.middleware e ++ installed w ++ installed w)%list.
Proof.
  assert (Hrun : forall e0 : echo.Echo,
    configEcho e0 w
    = Some ({| echo.middleware := (echo.middleware e0 ++ installed w)%list;
               echo.routes := echo.routes e0 |}, w)).
  { intros e0.
    transitivity
      (Some (echo.Use (echo.Use (echo.Use e0
                (echo.BodyDumpWithConfig echo.dumpBodies))
                (echo.LoggerWithConfig (formatInForce w) (logrus.Out (std w))))
                (echo.CORSWithConfig allowAll), w)); [reflexivity |].
    unfold echo.Use, installed. cbn [echo.middleware echo.routes].
    now rewrite <- !app_assoc. }
  do 2 eexists. split; [apply Hrun |]. split; [apply Hrun |].
  cbn [echo.routes echo.middleware]. repeat split.
  now rewrite <- app_assoc.
Qed.

Lemma configure_ref (r : LoggerRef) (lg cfg : logrus.Logger) (w : World) :
  load r w = Some (lg, w) ->
  (LoggerOps.SetOutput r (logrus.Out cfg) ;;
   LoggerOps.SetLevel r (logrus.Level_ cfg) ;;
   LoggerOps.SetFormatter r (logrus.Formatter_ cfg)) w
  = store r cfg w.
Proof.
  destruct cfg as [out f level]. destruct r as [| l]; intros Hl.
  - reflexivity.
  - unfold load in Hl. destruct (made w !! l) as [lg' |] eqn:E; [| discriminate].
    cbn [logrus.Out logrus.Level_ logrus.Formatter_].
    rewrite (configure_made l lg' w out level f E). reflexivity.
Qed.

Lemma initAccessLog_existing
    (ParseLevel : string -> logrus.Level * option error)
    (e : echo.Echo) (r : LoggerRef) (lg : logrus.Logger)
    (ctx : context.Context) (lc : LogConfig) (level : logrus.Level) (w : World) :
  load r w = Some (lg, w) ->
  ParseLevel (Level lc) = (level, None) ->
  initAccessLog ParseLevel {| Echo := e; Logger := Some r |} ctx lc w
  = match store r (configuredLogger ctx lc level) w with
    | Some (_, w') => Some (({| Echo := e; Logger := Some r |}, None), w')
    | None => None
    end.
Proof.
  intros Hl HP. unfold initAccessLog, bind at 1. cbn [Logger ret]. rewrite HP.
  pose proof (configure_ref r lg (configuredLogger ctx lc level) w Hl) as Hc.
  cbn [configuredLogger logrus.Out logrus.Level_ logrus.Formatter_] in Hc.
  assert (Hgo : forall out,
    out = chosenWriter ctx lc ->
    (LoggerOps.SetOutput r out ;;
     LoggerOps.SetLevel r level ;;
     LoggerOps.SetFormatter r (logrus.Text {| logrus.QuoteEmptyFields := true |}) ;;
     ret ({| Echo := e; Logger := Some r |}, @None error)) w
    = match store r (configuredLogger ctx lc level) w with
      | Some (_, w') => Some (({| Echo := e; Logger := Some r |}, None), w')
      | None => None
      end).
  { intros out ->. rewrite <- Hc. unfold bind.
    destruct (LoggerOps.SetOutput r (chosenWriter ctx lc) w) as [[[] w1] |];
      [| reflexivity].
    destruct (LoggerOps.SetLevel r level w1) as [[[] w2] |]; [| reflexivity].
    destruct (LoggerOps.SetFormatter r _ w2) as [[[] w3] |]; reflexivity. }
  unfold chosenWriter in Hgo |- *.
  destruct (String.eqb (Output lc) "stdout"); [now apply Hgo |].
  destruct (String.eqb (Output lc) "stderr"); [now apply Hgo |].
  destruct (String.eqb (Output lc) EmptyString); now apply Hgo.
Qed.

(** X7: an invalid level is found before anything is set: a logger already
    in the gateway keeps its writer, level and formatter, whatever output
    the configuration names, and the world is as before.  With an empty
    [Logger] field the gateway has by then been given a new logger, which
    stays as it was made. *)
Theorem invalid_level_sets_nothing
    (ParseLevel : string -> logrus.Level * option error)
    (e : echo.Echo) (ctx : context.Context) (lc : LogConfig)
    (level : logrus.Level) (er : error) (w : World) :
  ParseLevel (Level lc) = (level, Some er) ->
  (forall r,
     initAccessLog ParseLevel {| Echo := e; Logger := Some r |} ctx lc w
     = Some (({| Echo := e; Logger := Some r |}, Some er), w)) /\
  (exists l,
     made w !! l = None /\
     initAccessLog ParseLevel {| Echo := e; Logger := None |} ctx lc w
     = Some (({| Echo := e; Logger := Some (MadeRef l) |}, Some er),
             set_made w (<[l := newLogger]> (made w)))).
Proof.
  intros HP. split.
  - intros r. unfold initAccessLog, bind. cbn [Logger ret]. now rewrite HP.
  - exists (fresh (dom (made w))). split; [apply fresh_unused |].
    exact (initAccessLog_err ParseLevel ctx lc w e level er HP).
Qed.

Lemma invalid_level_sets_nothing_witness :
  initAccessLog LevelNames.ParseLevel sharingGateway context.Background
    bogusConfig quietWorld
  = Some ((sharingGateway,
           Some ("not a valid logrus Level: " ++ LevelNames.quote "bogus")),
          quietWorld).
Proof.
  apply (invalid_level_sets_nothing LevelNames.ParseLevel echo.New
           context.Background bogusConfig logrus.PanicLevel _ quietWorld).
  reflexivity.
Defined.

(** X8: [initAccessLog] on a gateway that has a logger makes no new one and
    overwrites writer, level and formatter of the one it has, whatever they
    were: configuring twice leaves what the second configuration alone
    leaves. *)
Theorem reconfiguration_last_wins
    (ParseLevel : string -> logrus.Level * option error)
    (e : echo.Echo) (r : LoggerRef) (lg : logrus.Logger)
    (ctx1 ctx2 : context.Context) (lc1 lc2 : LogConfig)
    (level1 level2 : logrus.Level) (w : World) :
  load r w = Some (lg, w) ->
  ParseLevel (Level lc1) = (level1, None) ->
  ParseLevel (Level lc2) = (level2, None) ->
  exists w1 w2,
    initAccessLog ParseLevel {| Echo := e; Logger := Some r |} ctx1 lc1 w
    = Some (({| Echo := e; Logger := Some r |}, None), w1) /\
    initAccessLog ParseLevel {| Echo := e; Logger := Some r |} ctx2 lc2 w1
    = Some (({| Echo := e; Logger := Some r |}, None), w2) /\
    initAccessLog ParseLevel {| Echo := e; Logger := Some r |} ctx2 lc2 w
    = Some (({| Echo := e; Logger := Some r |}, None), w2) /\
    load r w2 = Some (configuredLogger ctx2 lc2 level2, w2) /\
    dom (made w2) = dom (made w).
Proof.
  intros Hl HP1 HP2.
  rewrite (initAccessLog_existing ParseLevel e r lg ctx1 lc1 level1 w Hl HP1).
  rewrite (initAccessLog_existing ParseLevel e r lg ctx2 lc2 level2 w Hl HP2).
  destruct r as [| l].
  - do 2 eexists. split; [reflexivity |].
    split; [| split; [reflexivity | split; reflexivity]].
    now rewrite (initAccessLog_existing ParseLevel e StandardRef
                   (configuredLogger ctx1 lc1 level1) ctx2 lc2 level2).
  - unfold load in Hl. destruct (made w !! l) as [lg' |] eqn:E; [| discriminate].
    cbn [store]. do 2 eexists. split; [reflexivity |].
    split; [| split; [reflexivity | split]].
    + rewrite (initAccessLog_existing ParseLevel e (MadeRef l)
                 (configuredLogger ctx1 lc1 level1) ctx2 lc2 level2).
      * cbn [store set_made made]. now rewrite insert_insert_eq.
      * unfold load. cbn [set_made made]. now rewrite lookup_insert_eq.
      * exact HP2.
    + unfold load. cbn [set_made made]. now rewrite lookup_insert_eq.
    + cbn [set_made made]. apply set_eq. intros k.
      rewrite dom_insert, elem_of_union, elem_of_singleton.
      split; [intros [-> | H]; [apply elem_of_dom; eauto | exact H] | now right].
Qed.

Lemma reconfiguration_last_wins_witness :
  exists w1 w2,
    initAccessLog LevelNames.ParseLevel sharingGateway context.Background
      fileConfig quietWorld
    = Some ((sharingGateway, None), w1) /\
    initAccessLog LevelNames.ParseLevel sharingGateway context.Background
      stdoutConfig w1
    = Some ((sharingGateway, None), w2) /\
    std w2 = {| logrus.Out := logrus.os_Stdout;
                logrus.Formatter_ :=
                  logrus.Text {| logrus.QuoteEmptyFields := true |};
                logrus.Level_ := logrus.DebugLevel |}.
Proof.
  destruct (reconfiguration_last_wins LevelNames.ParseLevel echo.New
              StandardRef (std quietWorld) context.Background context.Background
              fileConfig stdoutConfig logrus.InfoLevel logrus.DebugLevel
              quietWorld eq_refl eq_refl eq_refl)
    as (w1 & w2 & H1 & H2 & _ & Hload & _).
  exists w1, w2. split; [exact H1 |]. split; [exact H2 |].
  unfold load in Hload. injection Hload as Hstd. rewrite Hstd. reflexivity.
Defined.

(** X9: [New] writes no log line and neither starts nor stops the server,
    and it leaves the settings alone, whether it returns a gateway or the
    level error. *)
Theorem New_is_silent
    (ParseLevel : string -> logrus.Level * option error)
    (ctx : context.Context) (lc : LogConfig) (w : World) :
  exists r w',
    New ParseLevel ctx lc w = Some (r, w') /\
    trace w' = trace w /\
    settings w' = settings w.
Proof.
  destruct (ParseLevel (Level lc)) as [level [er |]] eqn:HP.
  - do 2 eexists.
    split; [exact (New_err ParseLevel ctx lc w level er HP) |].
    split; reflexivity.
  - do 2 eexists.
    split; [exact (New_ok ParseLevel ctx lc w level HP) |].
    split; reflexivity.
Qed.

(** ** Stopping *)

(** X10: when shutting the server down fails, [Stop] logs that it failed but
    not why: the failure line carries the server, not the error, so any two
    errors leave the same trace, which differs from that of a clean stop. *)
Theorem shutdown_error_is_not_logged
    (agw : ApiGateway) (er er' : error) (w : World) :
  Stop agw (Some er) w = Stop agw (Some er') w /\
  Stop agw (Some er) w <> Stop agw None w /\
  exists w',
    Stop agw (Some er) w = Some (tt, w') /\
    trace w'
    = (trace w
       ++ [EchoShutdown (Echo agw)
             (context.WithTimeout context.Background 5000000000);
           Logged logrus.ErrorLevel "Failed to close Echo: %v" [VEcho (Echo agw)];
           Logged logrus.InfoLevel "Close service: %v" [VEcho (Echo agw)]])%list.
Proof.
  unfold Stop. rewrite !shutdownEcho_run. split; [reflexivity |]. split.
  - intros H.
    assert (Hev : forall a b : list Event,
              Some (tt, record w a) = Some (tt, record w b) -> a = b).
    { intros a b Hab. apply (record_trace_inj w). congruence. }
    apply Hev in H. discriminate.
  - eexists. split; reflexivity.
Qed.

(** ** The listing when no two routes share a path *)

Module ListingFacts.

Lemma ltb_neither (s t : string) :
  String.ltb s t = false -> String.ltb t s = false -> s = t.
Proof.
  unfold String.ltb. rewrite (String.compare_antisym t s).
  destruct (String.compare s t) eqn:E; simpl; try discriminate.
  intros _ _. now apply String.compare_eq_iff.
Qed.

(** Two arrangements of the same entries, both ascending by path, are the
    same arrangement if no path occurs twice. *)
Lemma ascending_unique (l1 l2 : list listing.entry) :
  NoDup (map listing.p l1) ->
  Permutation l1 l2 ->
  StronglySorted (fun x y => byPath y x = false) l1 ->
  StronglySorted (fun x y => byPath y x = false) l2 ->
  l1 = l2.
Proof.
  revert l2. induction l1 as [|a l1 IH]; intros l2 Hnd Hp Hs1 Hs2.
  - now apply Permutation_nil in Hp.
  - destruct l2 as [|b l2].
    { symmetry in Hp. now apply Permutation_nil_cons in Hp. }
    apply StronglySorted_inv in Hs1 as [Hs1 Ha].
    apply StronglySorted_inv in Hs2 as [Hs2 Hb].
    apply NoDup_cons in Hnd as [Hna Hnd].
    assert (Hab : a = b).
    { assert (Hin : In a (b :: l2))
        by (eapply Permutation_in; [exact Hp | now left]).
      destruct Hin as [Hin | Hin]; [now symmetry |].
      assert (Hin' : In b (a :: l1))
        by (eapply Permutation_in; [symmetry; exact Hp | now left]).
      destruct Hin' as [Hin' | Hin']; [exact Hin' |].
      exfalso. apply Hna.
      rewrite Forall_forall in Ha, Hb.
      apply list_elem_of_In in Hin, Hin'.
      pose proof (Ha b Hin') as H1. pose proof (Hb a Hin) as H2.
      unfold byPath in H1, H2.
      rewrite (ltb_neither _ _ H2 H1).
      apply list_elem_of_In, in_map, list_elem_of_In, Hin'. }
    subst b. f_equal. apply IH; try assumption.
    now apply Permutation_cons_inv in Hp.
Qed.

Lemma entries_paths (e : echo.Echo) :
  map listing.p (entries e) = map echo.Path (echo.Routes e).
Proof.
  unfold entries. rewrite map_map. reflexivity.
Qed.

End ListingFacts.

(** X11: when no two routes share a path the listing does not depend on how
    [sort.Slice] treats equal elements: every sort that keeps its contract
    gives the same lines. *)
Theorem listing_determined_for_distinct_paths
    (sort1 sort2 : forall A : Type, (A -> A -> bool) -> list A -> list A)
    (e : echo.Echo) (w : World) :
  SortSliceContract sort1 ->
  SortSliceContract sort2 ->
  NoDup (map echo.Path (echo.Routes e)) ->
  showEcho sort1 e w = showEcho sort2 e w.
Proof.
  intros H1 H2 Hnd. rewrite !showEcho_run. do 4 f_equal.
  destruct (H1 _ byPath (entries e) byPath_strict_weak) as [Hp1 Hs1].
  destruct (H2 _ byPath (entries e) byPath_strict_weak) as [Hp2 Hs2].
  apply ListingFacts.ascending_unique; try assumption.
  - rewrite <- ListingFacts.entries_paths in Hnd.
    assert (Hm : Permutation (map listing.p (entries e))
                   (map listing.p (sort1 _ byPath (entries e))))
      by now apply Permutation_map.
    now rewrite <- Hm.
  - now rewrite <- Hp1.
Qed.

Lemma listing_determined_for_distinct_paths_witness :
  showEcho Sorts.keeping twoRoutes quietWorld
  = showEcho Sorts.reversing twoRoutes quietWorld.
Proof.
  apply (listing_determined_for_distinct_paths Sorts.keeping Sorts.reversing
           twoRoutes quietWorld
           SortsFacts.keeping_contract SortsFacts.reversing_contract).
  apply (bool_decide_unpack _). vm_compute. exact I.
Defined.

(** ** Console outputs *)

Lemma chosenWriter_console (ctx ctx' : context.Context) (lc lc' : LogConfig) :
  Output lc = Output lc' ->
  Output lc = "stdout" \/ Output lc = "stderr" \/ Output lc = EmptyString ->
  chosenWriter ctx lc = chosenWriter ctx' lc'.
Proof.
  intros Ho Hc. unfold chosenWriter. rewrite <- Ho.
  destruct Hc as [-> | [-> | ->]]; reflexivity.
Qed.

(** X12: for the outputs "stdout", "stderr" and the empty string the size
    limit, backup count, maximal age and the context play no part: two
    configurations that agree on output and level construct the same
    gateway and leave the same world. *)
Theorem rotation_settings_ignored_for_console
    (ParseLevel : string -> logrus.Level * option error)
    (ctx ctx' : context.Context) (lc lc' : LogConfig) (w : World) :
  Output lc = Output lc' ->
  Level lc = Level lc' ->
  Output lc = "stdout" \/ Output lc = "stderr" \/ Output lc = EmptyString ->
  New ParseLevel ctx lc w = New ParseLevel ctx' lc' w.
Proof.
  intros Ho Hl Hc.
  destruct (ParseLevel (Level lc)) as [level [er |]] eqn:HP.
  - rewrite (New_err ParseLevel ctx lc w level er HP).
    rewrite Hl in HP.
    now rewrite (New_err ParseLevel ctx' lc' w level er HP).
  - rewrite (New_ok ParseLevel ctx lc w level HP).
    rewrite Hl in HP.
    rewrite (New_ok ParseLevel ctx' lc' w level HP).
    now rewrite (chosenWriter_console ctx ctx' lc lc' Ho Hc).
Qed.

Lemma rotation_settings_ignored_for_console_witness :
  New LevelNames.ParseLevel context.Background stdoutConfig quietWorld
  = New LevelNames.ParseLevel
      (context.WithTimeout context.Background 1)
      {| Output := "stdout"; Level := "debug";
         Size := 100; BackNum := 5; AgeDays := 30 |} quietWorld.
Proof.
  apply rotation_settings_ignored_for_console.
  - reflexivity.
  - reflexivity.
  - left. reflexivity.
Defined.
